(** * nuka-carousel: the adaptive-height hook and the carousel controller

    A shallow embedding of

    - [packages/nuka/src/hooks/use-frame-height.ts] (module [FrameHeight]),
    - the compiled [Carousel] component (module [Carousel]; the helpers it
      imports from [./utils] are the class [Utils]).

    Conventions.  JavaScript numbers that the code uses as slide indices,
    slide counts and measured pixel heights are integers ([Z]); pointer
    deltas and drag offsets are exact rationals ([Q]); quotients that the
    code may take by zero are values of [jsnum].  A React state variable is
    read from the render that created the closure and written to the store;
    every handler therefore takes the rendered state [r] and the store [s]. *)

From Stdlib Require Import ZArith QArith Qround Qabs Lia Lqa.
From Stdlib Require Import List String Bool DecimalString Permutation.
Import ListNotations.
Open Scope Z_scope.

(** ** use-frame-height.ts *)

Module FrameHeight.

(** [SlideHeight] of [../types]: one measured slide. *)
Record SlideHeight := { slideIndex : Z; height : Z }.

(** The arguments of the hook. [slidesToShow] may be fractional: the code
    rounds it up. *)
Record Args := {
  adaptiveHeight : bool;
  slidesToShow : Q;
  numSlides : Z
}.

(** The two pieces of React state of the hook ([visibleHeightsRef] always
    holds the latest [visibleHeights]). *)
Record State := {
  visibleHeights : list SlideHeight;
  initializedAdaptiveHeight : bool
}.

Definition init : State :=
  {| visibleHeights := []; initializedAdaptiveHeight := false |}.

(** [Math.min(numSlides, Math.ceil(slidesToShow))] *)
Definition threshold (a : Args) : Z :=
  Z.min (numSlides a) (Qceiling (slidesToShow a)).

Definition sameIndex (i : Z) (sh : SlideHeight) : bool := slideIndex sh =? i.

(** The callback handed to the slides; [None] is JavaScript's [null]. *)
Definition handleVisibleSlideHeightChange
    (a : Args) (i : Z) (h : option Z) (s : State) : State :=
  let latestVisibleHeights := visibleHeights s in
  let newVisibleHeights :=
    match h with
    | None => filter (fun sh => negb (sameIndex i sh)) latestVisibleHeights
    | Some v =>
        let foundSlide := existsb (sameIndex i) latestVisibleHeights in
        if foundSlide
        then map (fun heightInfo =>
                    if sameIndex i heightInfo
                    then {| slideIndex := i; height := v |}
                    else heightInfo) latestVisibleHeights
        else latestVisibleHeights ++ [ {| slideIndex := i; height := v |} ]
    end in
  {| visibleHeights := newVisibleHeights;
     initializedAdaptiveHeight :=
       if threshold a <=? Z.of_nat (List.length newVisibleHeights)
       then true else initializedAdaptiveHeight s |}.

(** [Math.max(0, ...heights)] *)
Definition maxHeight (l : list SlideHeight) : Z :=
  fold_left Z.max (map height l) 0.

(** The template literal [`${maxHeight}px`]. *)
Definition px (n : Z) : string :=
  (NilZero.string_of_int (Z.to_int n) ++ "px")%string.

Definition frameHeight (a : Args) (s : State) : string :=
  if adaptiveHeight a then
    if negb (initializedAdaptiveHeight s) then "auto"%string
    else px (maxHeight (visibleHeights s))
  else "auto"%string.

(** A report is one call of the callback. *)
Definition Report : Type := Z * option Z.

Definition report (a : Args) (s : State) (r : Report) : State :=
  handleVisibleSlideHeightChange a (fst r) (snd r) s.

Definition reports (a : Args) (rs : list Report) (s : State) : State :=
  fold_left (report a) rs s.

(** The slide indices that have reported a number at least once. *)
Fixpoint reportedIndices (rs : list Report) : list Z :=
  match rs with
  | [] => []
  | (i, Some _) :: rs' => i :: reportedIndices rs'
  | (_, None) :: rs' => reportedIndices rs'
  end.

Definition distinctReported (rs : list Report) : Z :=
  Z.of_nat (List.length (nodup Z.eq_dec (reportedIndices rs))).

Definition indices (l : list SlideHeight) : list Z := map slideIndex l.

End FrameHeight.

(** ** Numbers that a division may turn into an infinity or into NaN *)

Inductive jsnum := Num (q : Q) | PosInfinity | NegInfinity | NaN.

Definition Qlt_bool (x y : Q) : bool := negb (Qle_bool y x).

(** [a / d] for an integer divisor [d]. *)
Definition jsdiv (a : jsnum) (d : Z) : jsnum :=
  match a with
  | Num q =>
      if d =? 0 then
        if Qeq_bool q 0 then NaN
        else if Qlt_bool 0 q then PosInfinity else NegInfinity
      else Num (q / inject_Z d)
  | PosInfinity => if 0 <=? d then PosInfinity else NegInfinity
  | NegInfinity => if 0 <=? d then NegInfinity else PosInfinity
  | NaN => NaN
  end.

(** [x <= t] and [x > t] for a finite [x]; both are false at NaN. *)
Definition jsle (x : Q) (t : jsnum) : bool :=
  match t with
  | Num q => Qle_bool x q
  | PosInfinity => true
  | NegInfinity | NaN => false
  end.

Definition jsgt (x : Q) (t : jsnum) : bool :=
  match t with
  | Num q => Qlt_bool q x
  | NegInfinity => true
  | PosInfinity | NaN => false
  end.

(** ** The helpers the component imports from [./utils] *)

Class Utils := {
  getIndexes : Z -> Z -> Z -> Z * Z;
  getNextMoveIndex : string -> bool -> Z -> Z -> Z -> Z -> Z;
  getPrevMoveIndex : string -> bool -> Z -> Z -> Z
}.

Module SpecUtils.

(** Modelled from the spec: [getNextMoveIndex] of [./utils], which is not
    among the sources.  It advances by [slidesToScroll]; with wrap-around
    disabled it clamps so that the last visible window does not exceed
    [count - slidesToShow]. *)
Definition getNextMoveIndex (scrollMode : string) (wrapAround : bool)
    (currentSlide count slidesToScroll slidesToShow : Z) : Z :=
  if wrapAround then currentSlide + slidesToScroll
  else Z.min (currentSlide + slidesToScroll) (count - slidesToShow).

(** Modelled from the spec: [getPrevMoveIndex] of [./utils], which is not
    among the sources.  The symmetric backward step; without wrap-around it
    floors at 0. *)
Definition getPrevMoveIndex (scrollMode : string) (wrapAround : bool)
    (currentSlide slidesToScroll : Z) : Z :=
  if wrapAround then currentSlide - slidesToScroll
  else Z.max 0 (currentSlide - slidesToScroll).

(** Modelled from the spec: [getIndexes] of [./utils], which is not among
    the sources.  The spec only says that the pre-move callback receives
    the start of the current window and that indices are normalised into
    the range of the slides before they are exposed. *)
Definition getIndexes (slide endSlide count : Z) : Z * Z :=
  let norm i := if i <? 0 then i + count
                else if count - 1 <? i then i - count else i in
  (norm slide, norm endSlide).

Definition utils : Utils :=
  Build_Utils getIndexes getNextMoveIndex getPrevMoveIndex.

End SpecUtils.

(** ** The Carousel component *)

Module Carousel.

(** The props the controller reads.  [props_x] is [props.x];
    [props_children] is [React.Children.count(props.children)] and
    [props_fade] is [props.animation === 'fade']. *)
Record Props := {
  props_children : nat;
  props_slidesToShow : Z;
  props_slidesToScroll : Z;
  props_slideIndex : Z;
  props_scrollMode : string;
  props_wrapAround : bool;
  props_autoplay : bool;
  props_autoplayReverse : bool;
  props_autoplayInterval : Z;
  props_disableAnimation : bool;
  props_speed : Z;
  props_fade : bool;
  props_dragging : bool;
  props_swiping : bool;
  props_disableEdgeSwiping : bool;
  props_pauseOnHover : bool
}.

(** The calls made to the callbacks of the props, latest last. *)
Inductive Callback :=
| beforeSlide (slide nextIndex : Z)
| afterSlide (nextIndex : Z)
| onDragStart
| onDrag
| onDragEnd.

(** The closures handed to [setTimeout], each with the [currentSlide] (and
    argument) of the render that created it. *)
Inductive Task :=
| SettleTask (to : option Z) (nextIndex : Z)
| AutoplayTask (cur : Z)
| WrapPrevTask (cur : Z)
| WrapNextTask (cur : Z).

Record Timeout := { handle : positive; delay : Z; task : Task }.

(** React state ([currentSlide] .. [move]), refs ([prevMove] ..
    [isMounted]), the pending timeouts and the callback log. *)
Record State := {
  currentSlide : Z;
  animation : bool;
  pause : bool;
  dragging : bool;
  move : Q;
  prevMove : Q;
  carouselWidth : option Z;
  timer : option positive;
  isMounted : bool;
  timeouts : list Timeout;
  nextHandle : positive;
  calls : list Callback
}.

Definition setCurrentSlide (v : Z) (s : State) : State :=
  {| currentSlide := v; animation := animation s; pause := pause s;
     dragging := dragging s; move := move s; prevMove := prevMove s;
     carouselWidth := carouselWidth s; timer := timer s;
     isMounted := isMounted s; timeouts := timeouts s;
     nextHandle := nextHandle s; calls := calls s |}.

Definition setAnimation (v : bool) (s : State) : State :=
  {| currentSlide := currentSlide s; animation := v; pause := pause s;
     dragging := dragging s; move := move s; prevMove := prevMove s;
     carouselWidth := carouselWidth s; timer := timer s;
     isMounted := isMounted s; timeouts := timeouts s;
     nextHandle := nextHandle s; calls := calls s |}.

Definition setPause (v : bool) (s : State) : State :=
  {| currentSlide := currentSlide s; animation := animation s; pause := v;
     dragging := dragging s; move := move s; prevMove := prevMove s;
     carouselWidth := carouselWidth s; timer := timer s;
     isMounted := isMounted s; timeouts := timeouts s;
     nextHandle := nextHandle s; calls := calls s |}.

Definition setDragging (v : bool) (s : State) : State :=
  {| currentSlide := currentSlide s; animation := animation s;
     pause := pause s; dragging := v; move := move s;
     prevMove := prevMove s; carouselWidth := carouselWidth s;
     timer := timer s; isMounted := isMounted s; timeouts := timeouts s;
     nextHandle := nextHandle s; calls := calls s |}.

Definition setMove (v : Q) (s : State) : State :=
  {| currentSlide := currentSlide s; animation := animation s;
     pause := pause s; dragging := dragging s; move := v;
     prevMove := prevMove s; carouselWidth := carouselWidth s;
     timer := timer s; isMounted := isMounted s; timeouts := timeouts s;
     nextHandle := nextHandle s; calls := calls s |}.

(** Assignments to [prevMove.current], [carouselWidth.current],
    [timer.current] and [isMounted.current]. *)
Definition setPrevMove (v : Q) (s : State) : State :=
  {| currentSlide := currentSlide s; animation := animation s;
     pause := pause s; dragging := dragging s; move := move s;
     prevMove := v; carouselWidth := carouselWidth s; timer := timer s;
     isMounted := isMounted s; timeouts := timeouts s;
     nextHandle := nextHandle s; calls := calls s |}.

Definition setCarouselWidth (v : option Z) (s : State) : State :=
  {| currentSlide := currentSlide s; animation := animation s;
     pause := pause s; dragging := dragging s; move := move s;
     prevMove := prevMove s; carouselWidth := v; timer := timer s;
     isMounted := isMounted s; timeouts := timeouts s;
     nextHandle := nextHandle s; calls := calls s |}.

Definition setTimer (v : option positive) (s : State) : State :=
  {| currentSlide := currentSlide s; animation := animation s;
     pause := pause s; dragging := dragging s; move := move s;
     prevMove := prevMove s; carouselWidth := carouselWidth s; timer := v;
     isMounted := isMounted s; timeouts := timeouts s;
     nextHandle := nextHandle s; calls := calls s |}.

Definition setIsMounted (v : bool) (s : State) : State :=
  {| currentSlide := currentSlide s; animation := animation s;
     pause := pause s; dragging := dragging s; move := move s;
     prevMove := prevMove s; carouselWidth := carouselWidth s;
     timer := timer s; isMounted := v; timeouts := timeouts s;
     nextHandle := nextHandle s; calls := calls s |}.

Definition setTimeouts (v : list Timeout) (n : positive) (s : State) : State :=
  {| currentSlide := currentSlide s; animation := animation s;
     pause := pause s; dragging := dragging s; move := move s;
     prevMove := prevMove s; carouselWidth := carouselWidth s;
     timer := timer s; isMounted := isMounted s; timeouts := v;
     nextHandle := n; calls := calls s |}.

(** A call of one of the callbacks of the props. *)
Definition call (c : Callback) (s : State) : State :=
  {| currentSlide := currentSlide s; animation := animation s;
     pause := pause s; dragging := dragging s; move := move s;
     prevMove := prevMove s; carouselWidth := carouselWidth s;
     timer := timer s; isMounted := isMounted s; timeouts := timeouts s;
     nextHandle := nextHandle s; calls := calls s ++ [c] |}.

(** [setTimeout(task, delay)]: the handle returned and the new store. *)
Definition setTimeout (t : Task) (d : Z) (s : State) : positive * State :=
  (nextHandle s,
   setTimeouts (timeouts s ++ [ {| handle := nextHandle s; delay := d; task := t |} ])
               (Pos.succ (nextHandle s)) s).

Definition clearTimeout (h : positive) (s : State) : State :=
  setTimeouts (filter (fun t => negb (Pos.eqb (handle t) h)) (timeouts s))
              (nextHandle s) s.

(** [if (timer.current) clearTimeout(timer.current)] *)
Definition clearTimer (s : State) : State :=
  match timer s with
  | Some h => clearTimeout h s
  | None => s
  end.

Section Component.

Context {U : Utils} (p : Props).

Definition count : Z := Z.of_nat (props_children p).

(** [useState(props.autoplayReverse ? count - props.slidesToShow :
    props.slideIndex)] and the other initial values of the first render. *)
Definition initialState : State :=
  {| currentSlide :=
       if props_autoplayReverse p then count - props_slidesToShow p
       else props_slideIndex p;
     animation := false; pause := false; dragging := false; move := 0%Q;
     prevMove := 0%Q; carouselWidth := None; timer := None;
     isMounted := true; timeouts := []; nextHandle := 1%positive;
     calls := [] |}.

Definition slidesToScroll : Z :=
  if props_fade p then props_slidesToShow p else props_slidesToScroll p.

(** [(carouselWidth.current || 0) / props.slidesToShow / 2], computed by the
    render [r]. *)
Definition dragThreshold (r : State) : jsnum :=
  let width := match carouselWidth r with Some w => w | None => 0 end in
  jsdiv (jsdiv (Num (inject_Z width)) (props_slidesToShow p)) 2.

(** [getNextIndex(to)] in a render whose [currentSlide] is [cur];
    [to = None] is an omitted argument. *)
Definition getNextIndex (count cur : Z) (to : option Z) : Z :=
  let index := match to with Some t => t | None => cur end in
  if index <? 0 then index + count
  else if index =? count then 0
  else index.

(** [props.speed || 500] *)
Definition speedOrDefault : Z :=
  if props_speed p =? 0 then 500 else props_speed p.

Definition moveSlide (cur : Z) (to : option Z) (s : State) : State :=
  let slide := fst (getIndexes cur (cur - slidesToScroll) count) in
  let nextIndex := getNextIndex count cur to in
  let s := match to with
           | Some _ => call (beforeSlide slide nextIndex) s
           | None => s
           end in
  let s := if props_disableAnimation p then s else setAnimation true s in
  let s := setCurrentSlide (match to with Some t => t | None => cur end) s in
  snd (setTimeout (SettleTask to nextIndex)
                  (if props_disableAnimation p then 40 else speedOrDefault) s).

Definition nextSlide (cur : Z) (s : State) : State :=
  if props_wrapAround p || (cur <? count - props_slidesToScroll p) then
    let nextPosition :=
      getNextMoveIndex (props_scrollMode p) (props_wrapAround p) cur count
                       (props_slidesToScroll p) (props_slidesToShow p) in
    moveSlide cur (Some nextPosition) s
  else moveSlide cur None s.

Definition prevSlide (cur : Z) (s : State) : State :=
  if props_wrapAround p || (0 <? cur) then
    let prevPosition :=
      getPrevMoveIndex (props_scrollMode p) (props_wrapAround p) cur
                       (props_slidesToScroll p) in
    moveSlide cur (Some prevPosition) s
  else moveSlide cur None s.

(** *** Effects *)

(** [useEffect(..., [props.slideIndex])]; [props.slideIndex] is always a
    number here. *)
Definition slideIndexEffect (r s : State) : State :=
  if negb (props_autoplayReverse p)
  then moveSlide (currentSlide r) (Some (props_slideIndex p)) s
  else s.

(** [useEffect(..., [animation, currentSlide])]: the correction of the
    index under autoplay. *)
Definition autoplayCorrectionEffect (r s : State) : State :=
  if props_autoplay p && negb (animation r) && props_wrapAround p then
    if count <? currentSlide r then
      clearTimer (setCurrentSlide (currentSlide r - count) s)
    else if currentSlide r <? 0 then
      clearTimer (setCurrentSlide (count - - currentSlide r) s)
    else s
  else s.

(** [useEffect(..., [currentSlide, pause])] and its cleanup. *)
Definition autoplayEffect (r s : State) : State :=
  let s :=
    if props_autoplay p && negb (pause r) then
      let '(h, s') := setTimeout (AutoplayTask (currentSlide r))
                                 (props_autoplayInterval p) s in
      setTimer (Some h) s'
    else s in
  if props_autoplay p && pause r then clearTimer s else s.

Definition autoplayCleanup (s : State) : State := clearTimer s.

(** The speed of the wrap-around correction: 0 when animation is
    disabled. *)
Definition wrapSpeed : Z :=
  if props_disableAnimation p then 0 else speedOrDefault.

(** [useEffect(..., [currentSlide])]: makes the loop infinite. *)
Definition wrapAroundEffect (r s : State) : State :=
  if props_wrapAround p && negb (props_autoplay p) then
    let speed := wrapSpeed in
    if currentSlide r <=? - props_slidesToShow p then
      snd (setTimeout (WrapPrevTask (currentSlide r)) (speed + 10) s)
    else if count <=? currentSlide r then
      snd (setTimeout (WrapNextTask (currentSlide r)) (speed + 10) s)
    else s
  else s.

(** The effects of the first commit, in source order; [offsetWidth] is the
    rendered width of the frame element. *)
Definition mountEffects (offsetWidth : Z) (r s : State) : State :=
  let s := setIsMounted true s in
  let s := slideIndexEffect r s in
  let s := autoplayCorrectionEffect r s in
  let s := autoplayEffect r s in
  let s := wrapAroundEffect r s in
  setCarouselWidth (Some offsetWidth) s.

Definition mount (offsetWidth : Z) : State :=
  mountEffects offsetWidth initialState initialState.

(** The effects of a later commit: [prev] is the previous render and [r]
    the new one.  The cleanups of the effects whose dependencies changed
    run first, then these effects in source order. *)
Definition commit (prev r : State) : State :=
  let indexChanged := negb (currentSlide prev =? currentSlide r) in
  let animationChanged := negb (Bool.eqb (animation prev) (animation r)) in
  let pauseChanged := negb (Bool.eqb (pause prev) (pause r)) in
  let s := r in
  let s := if indexChanged || pauseChanged then autoplayCleanup s else s in
  let s := if animationChanged || indexChanged
           then autoplayCorrectionEffect r s else s in
  let s := if indexChanged || pauseChanged then autoplayEffect r s else s in
  if indexChanged then wrapAroundEffect r s else s.

Definition unmount (s : State) : State :=
  autoplayCleanup (setIsMounted false s).

(** *** Timers *)

Definition runTask (t : Task) (s : State) : State :=
  match t with
  | SettleTask to nextIndex =>
      if negb (isMounted s) then s
      else
        let s := match to with
                 | Some _ => call (afterSlide nextIndex) s
                 | None => s
                 end in
        if props_disableAnimation p then s else setAnimation false s
  | AutoplayTask cur =>
      if props_autoplayReverse p then
        if negb (props_wrapAround p) && (0 <? cur) then prevSlide cur s
        else if props_wrapAround p then prevSlide cur s
        else s
      else if negb (props_wrapAround p) && (cur <? count - props_slidesToShow p)
      then nextSlide cur s
      else if props_wrapAround p then nextSlide cur s
      else s
  | WrapPrevTask cur =>
      if negb (isMounted s) then s else setCurrentSlide (count - - cur) s
  | WrapNextTask cur =>
      if negb (isMounted s) then s else setCurrentSlide (cur - count) s
  end.

(** The timeout with handle [h] fires (nothing happens when it is not
    pending). *)
Definition fire (h : positive) (s : State) : State :=
  match find (fun t => Pos.eqb (handle t) h) (timeouts s) with
  | Some t => runTask (task t) (clearTimeout h s)
  | None => s
  end.

(** *** Gestures *)

Definition handleDragEnd (r s : State) : State :=
  if negb (props_dragging p) || negb (dragging r) then s
  else
    let s := setDragging false s in
    let s := call onDragEnd s in
    if jsle (Qabs (move r)) (dragThreshold r) then
      let s := moveSlide (currentSlide r) None s in
      let s := setMove 0 s in
      setPrevMove 0 s
    else
      let s := if Qlt_bool 0 (move r)
               then nextSlide (currentSlide r) s
               else prevSlide (currentSlide r) s in
      let s := setMove 0 s in
      setPrevMove 0 s.

Definition onTouchStart (r s : State) : State :=
  if negb (props_swiping p) then s
  else call onDragStart (setDragging true s).

Definition handlePointerMove (r : State) (m : Q) (s : State) : State :=
  if negb (props_dragging p) || negb (dragging r) then s
  else
    let moveValue := (m * 0.75)%Q in
    let moveState := (move r + (moveValue - prevMove s))%Q in
    if jsgt (Qabs (move r)) (dragThreshold r) then handleDragEnd r s
    else if negb (props_wrapAround p) && props_disableEdgeSwiping p
            && ((currentSlide r <=? 0) && Qle_bool moveState 0
                || Qlt_bool 0 moveState
                   && (count - props_slidesToShow p <=? currentSlide r))
    then setPrevMove moveValue s
    else
      let s := if negb (Qeq_bool (prevMove s) 0)
               then setMove moveState s else s in
      setPrevMove moveValue s.

(** [pageX] is [e.touches[0].pageX]. *)
Definition onTouchMove (r : State) (pageX : Q) (s : State) : State :=
  if negb (props_dragging p) || negb (dragging r) then s
  else
    let s := call onDragStart s in
    let width := match carouselWidth s with Some w => w | None => 0 end in
    let moveValue := (inject_Z width - pageX)%Q in
    handlePointerMove r moveValue s.

Definition onMouseDown (r s : State) : State :=
  if negb (props_dragging p) then s
  else call onDragStart (setDragging true s).

(** [left] is the left edge of the bounding rectangle of the frame (0 when
    the frame is absent). *)
Definition onMouseMove (r : State) (clientX left : Q) (s : State) : State :=
  if negb (props_dragging p) || negb (dragging r) then s
  else
    let s := call onDrag s in
    let offsetX := (clientX - left)%Q in
    let width := match carouselWidth s with Some w => w | None => 0 end in
    let moveValue := (inject_Z width - offsetX)%Q in
    handlePointerMove r moveValue s.

Definition onMouseUp (r s : State) : State := handleDragEnd r s.

Definition onMouseEnter (r s : State) : State :=
  if props_pauseOnHover p then setPause true s else s.

Definition onMouseLeave (r s : State) : State :=
  if props_pauseOnHover p then setPause false s else s.

End Component.

(** Every pending timeout has a handle that [setTimeout] has already
    returned. *)
Definition freshHandles (s : State) : Prop :=
  Forall (fun t => (handle t < nextHandle s)%positive) (timeouts s).

Definition isAutoplayTask (t : Task) : bool :=
  match t with AutoplayTask _ => true | _ => false end.

(** The only autoplay timeout that can be pending is the one whose handle
    is in [timer.current]. *)
Definition autoplayTimerTracked (s : State) : Prop :=
  forall t, In t (timeouts s) -> isAutoplayTask (task t) = true ->
            timer s = Some (handle t).

End Carousel.

(** ** Configurations used in the examples *)

Module Examples.
Import Carousel.

Definition config (children : nat) (slidesToShow slidesToScroll : Z)
    (wrapAround autoplay disableEdgeSwiping : bool) : Props :=
  {| props_children := children;
     props_slidesToShow := slidesToShow;
     props_slidesToScroll := slidesToScroll;
     props_slideIndex := 0;
     props_scrollMode := "remainder";
     props_wrapAround := wrapAround;
     props_autoplay := autoplay;
     props_autoplayReverse := false;
     props_autoplayInterval := 3000;
     props_disableAnimation := false;
     props_speed := 500;
     props_fade := false;
     props_dragging := true;
     props_swiping := true;
     props_disableEdgeSwiping := disableEdgeSwiping;
     props_pauseOnHover := true |}.

(** count = 6, slidesToShow = 3, slidesToScroll = 3, no wrap-around. *)
Definition sixSlides : Props := config 6 3 3 false false false.

(** count = 5, slidesToShow = 1, wrap-around. *)
Definition fiveSlidesWrapped : Props := config 5 1 1 true false false.

(** count = 5, slidesToShow = 1, wrap-around and autoplay. *)
Definition fiveSlidesAutoplay : Props := config 5 1 1 true true false.

(** count = 3, slidesToShow = 1, slidesToScroll = 3, wrap-around and
    autoplay. *)
Definition threeSlidesAutoplay : Props := config 3 1 3 true true false.


(** A render of [p] at slide [i]. *)
Definition renderAt (p : Props) (i : Z) : State :=
  setCurrentSlide i (initialState p).

(** A render of [p] at slide [i], in a drag with offset [offset], with a
    measured frame width of [width]. *)
Definition dragAt (p : Props) (i : Z) (width : Z) (offset previous : Q)
  : State :=
  setPrevMove previous
    (setMove offset
       (setDragging true
          (setCurrentSlide i (setCarouselWidth (Some width) (initialState p))))).

End Examples.

(** ** The collection of visible heights read as a map *)

Module HeightMap.
Import FrameHeight.

(** The entry registered for slide [i], if there is one. *)
Definition lookup (i : Z) (l : list SlideHeight) : option SlideHeight :=
  find (sameIndex i) l.

Definition heightOf (i : Z) (s : State) : option Z :=
  option_map height (lookup i (visibleHeights s)).

(** What slide [i] reported last: [None] when it never reported or when
    its last report was [null]. *)
Definition lastReport (i : Z) (rs : list Report) : option Z :=
  fold_left (fun acc r => if fst r =? i then snd r else acc) rs None.

(** The callback that [handleVisibleSlideHeightChange] maps over the
    collection when slide [i] reports the number [v]. *)
Definition replaceEntry (i v : Z) (heightInfo : SlideHeight) : SlideHeight :=
  if sameIndex i heightInfo then {| slideIndex := i; height := v |}
  else heightInfo.

End HeightMap.

(** ** What the component renders from its state *)

Module Render.
Import Carousel.

(** [isCurrentSlide] of [renderSlides], for the child at [index]. *)
Definition isCurrentSlide (p : Props) (currentSlide index : Z) : bool :=
  if props_wrapAround p then
    (currentSlide =? index) || (currentSlide =? index + count p)
    || (currentSlide =? index - count p)
  else currentSlide =? index.

(** The indices of the children, as [React.Children.map] passes them. *)
Definition childIndices (p : Props) : list Z :=
  map Z.of_nat (seq 0 (props_children p)).

(** The children that one call of [renderSlides] marks as current. *)
Definition currentSlides (p : Props) (currentSlide : Z) : list Z :=
  filter (isCurrentSlide p currentSlide) (childIndices p).

End Render.

(** ** Sequences of events *)

Module Events.
Import Carousel.

(** What can happen to a mounted carousel.  A handler carries the render
    [r] (or its [currentSlide]) whose closure it is; [Commit prev] runs the
    effects of a render whose predecessor was [prev]. *)
Inductive Event :=
| Commit (prev : State)
| Fire (h : positive)
| MoveSlide (cur : Z) (to : option Z)
| NextSlide (cur : Z)
| PrevSlide (cur : Z)
| TouchStart (r : State)
| TouchMove (r : State) (pageX : Q)
| TouchEnd (r : State)
| MouseDown (r : State)
| MouseMove (r : State) (clientX rectLeft : Q)
| MouseUp (r : State)
| MouseEnter (r : State)
| MouseLeave (r : State).

Definition step `{Utils} (p : Props) (e : Event) (s : State) : State :=
  match e with
  | Commit prev => commit p prev s
  | Fire h => fire p h s
  | MoveSlide cur to => moveSlide p cur to s
  | NextSlide cur => nextSlide p cur s
  | PrevSlide cur => prevSlide p cur s
  | TouchStart r => onTouchStart p r s
  | TouchMove r pageX => onTouchMove p r pageX s
  | TouchEnd r => handleDragEnd p r s
  | MouseDown r => onMouseDown p r s
  | MouseMove r clientX rectLeft => onMouseMove p r clientX rectLeft s
  | MouseUp r => onMouseUp p r s
  | MouseEnter r => onMouseEnter p r s
  | MouseLeave r => onMouseLeave p r s
  end.

Definition run `{Utils} (p : Props) (es : list Event) (s : State) : State :=
  fold_left (fun s e => step p e s) es s.

Definition isGesture (e : Event) : bool :=
  match e with
  | TouchStart _ | TouchMove _ _ | TouchEnd _
  | MouseDown _ | MouseMove _ _ _ | MouseUp _ => true
  | _ => false
  end.

(** The handles of the pending timeouts are distinct and were all returned
    by [setTimeout] already. *)
Definition handlesDistinct (s : State) : Prop :=
  freshHandles s /\ NoDup (map handle (timeouts s)).

(** The pending autoplay timeouts. *)
Definition autoplayTimeouts (s : State) : list Timeout :=
  filter (fun t => isAutoplayTask (task t)) (timeouts s).

(** No autoplay timeout is pending. *)
Definition noAutoplayPending (s : State) : Prop := autoplayTimeouts s = [].

(** The timers are consistent: distinct handles, and at most the timeout of
    [timer.current] is an autoplay timeout. *)
Definition timersConsistent (s : State) : Prop :=
  handlesDistinct s /\ autoplayTimerTracked s.

(** A property of the timers that is kept when nothing about them changes,
    when a timeout other than an autoplay timeout is scheduled, and when
    timeouts are cancelled. *)
Definition stable (P : State -> Prop) : Prop :=
  (forall s s', timeouts s' = timeouts s -> nextHandle s' = nextHandle s ->
                timer s' = timer s -> P s -> P s')
  /\ (forall s t d, isAutoplayTask t = false -> P s ->
                    P (snd (setTimeout t d s)))
  /\ (forall s h, P s -> P (clearTimeout h s)).


(** Timeouts firing one after the other. *)
Definition fires `{Utils} (p : Props) (hs : list positive) (s : State) : State :=
  fold_left (fun s h => fire p h s) hs s.

End Events.

(** ** Keyboard controls *)

Module Keyboard.
Import Carousel.

(** [props.enableKeyboardControls] and [props.keyCodeConfig]: the key codes
    bound to each action, in the order of the keys of the object; [None]
    is a missing list. *)
Record KeyProps := {
  props_enableKeyboardControls : bool;
  props_keyCodeConfig : list (string * option (list Z))
}.

(** The state of the component with [keyboardMove] and [focus.current]. *)
Record KeyState := {
  carousel : State;
  keyboardMove : option string;
  focus : bool
}.

Definition setKeyboardMove (v : option string) (ks : KeyState) : KeyState :=
  {| carousel := carousel ks; keyboardMove := v; focus := focus ks |}.


(** [keyConfig[func]?.includes(e.keyCode)] *)
Definition includesKey (codes : option (list Z)) (keyCode : Z) : bool :=
  match codes with
  | Some l => existsb (Z.eqb keyCode) l
  | None => false
  end.

(** The body of the loop of [onKeyPress] over the keys of [keyConfig]. *)
Definition bind (keyCode : Z) (ks : KeyState)
    (entry : string * option (list Z)) : KeyState :=
  if includesKey (snd entry) keyCode
  then setKeyboardMove (Some (fst entry)) ks
  else ks.

(** [onKeyPress(e)] with [e.keyCode = keyCode] (0 when absent). *)
Definition onKeyPress (kp : KeyProps) (keyCode : Z) (ks : KeyState) : KeyState :=
  if props_enableKeyboardControls kp && focus ks && negb (keyCode =? 0) then
    fold_left (bind keyCode) (props_keyCodeConfig kp) ks
  else ks.




End Keyboard.

(** * Properties of the adaptive-height hook *)

Module FrameHeightFacts.
Import FrameHeight.

Lemma existsb_sameIndex i l :
  existsb (sameIndex i) l = true <-> In i (indices l).
Proof.
  unfold indices, sameIndex. rewrite existsb_exists, in_map_iff.
  split; intros [x [H1 H2]]; exists x.
  - apply Z.eqb_eq in H2. auto.
  - split; [assumption | now apply Z.eqb_eq].
Qed.

Lemma existsb_sameIndex_false i l :
  existsb (sameIndex i) l = false <-> ~ In i (indices l).
Proof.
  rewrite <- existsb_sameIndex. destruct (existsb (sameIndex i) l); split; congruence.
Qed.

Lemma indices_replace i v l :
  indices (map (fun heightInfo =>
                  if sameIndex i heightInfo
                  then {| slideIndex := i; height := v |}
                  else heightInfo) l) = indices l.
Proof.
  unfold indices. rewrite map_map. apply map_ext_in. intros sh _.
  unfold sameIndex. destruct (Z.eqb_spec (slideIndex sh) i); simpl; congruence.
Qed.

Lemma indices_filter_incl f l x :
  In x (indices (filter f l)) -> In x (indices l).
Proof.
  unfold indices. rewrite !in_map_iff. intros [sh [E H]].
  apply filter_In in H. exists sh. tauto.
Qed.

Lemma NoDup_indices_filter f l :
  NoDup (indices l) -> NoDup (indices (filter f l)).
Proof.
  induction l as [|sh l IH]; simpl; intros H; [constructor|].
  inversion H as [|? ? Hn Hd]; subst.
  destruct (f sh); simpl; auto.
  constructor; auto. intro Hin. apply Hn. now apply indices_filter_incl in Hin.
Qed.

Lemma indices_removed i l :
  ~ In i (indices (filter (fun sh => negb (sameIndex i sh)) l)).
Proof.
  unfold indices. rewrite in_map_iff. intros [sh [E H]].
  apply filter_In in H. destruct H as [_ H]. unfold sameIndex in H.
  apply negb_true_iff, Z.eqb_neq in H. contradiction.
Qed.

Lemma NoDup_step a i h s :
  NoDup (indices (visibleHeights s)) ->
  NoDup (indices (visibleHeights (handleVisibleSlideHeightChange a i h s))).
Proof.
  intros H. unfold handleVisibleSlideHeightChange; simpl. destruct h as [v|].
  - destruct (existsb (sameIndex i) (visibleHeights s)) eqn:E.
    + now rewrite indices_replace.
    + apply existsb_sameIndex_false in E. unfold indices in *.
      rewrite map_app. simpl. apply NoDup_app; auto.
      * repeat constructor. simpl. tauto.
      * intros x Hx [Hy|[]]. simpl in Hy. subst. contradiction.
  - now apply NoDup_indices_filter.
Qed.

Lemma NoDup_reports a rs : forall s,
  NoDup (indices (visibleHeights s)) ->
  NoDup (indices (visibleHeights (reports a rs s))).
Proof.
  induction rs as [|r rs IH]; simpl; intros s H; auto.
  apply IH. now apply NoDup_step.
Qed.


Lemma reports_app a rs1 rs2 s :
  reports a (rs1 ++ rs2) s = reports a rs2 (reports a rs1 s).
Proof. unfold reports. apply fold_left_app. Qed.

Lemma initialized_step a i h s :
  initializedAdaptiveHeight (handleVisibleSlideHeightChange a i h s) =
  (threshold a <=?
     Z.of_nat (List.length (visibleHeights (handleVisibleSlideHeightChange a i h s))))
  || initializedAdaptiveHeight s.
Proof.
  unfold handleVisibleSlideHeightChange; simpl.
  match goal with |- (if ?c then _ else _) = _ => destruct c end; reflexivity.
Qed.

Lemma initialized_stays a rs : forall s,
  initializedAdaptiveHeight s = true ->
  initializedAdaptiveHeight (reports a rs s) = true.
Proof.
  induction rs as [|r rs IH]; simpl; intros s H; auto.
  apply IH. unfold report. rewrite initialized_step, H. apply orb_true_r.
Qed.

Lemma initialized_iff a rs :
  initializedAdaptiveHeight (reports a rs init) = true <->
  exists rs1 rs2, rs = rs1 ++ rs2 /\ rs1 <> [] /\
    threshold a <= Z.of_nat (List.length (visibleHeights (reports a rs1 init))).
Proof.
  induction rs as [|r rs IH] using rev_ind.
  - simpl. split; [discriminate|].
    intros [rs1 [rs2 [E [Hne _]]]]. symmetry in E.
    apply app_eq_nil in E. tauto.
  - rewrite reports_app. cbn [reports fold_left]. unfold report.
    rewrite initialized_step, orb_true_iff, Z.leb_le. split.
    + intros [H|H].
      * exists (rs ++ [r]), []. rewrite app_nil_r, reports_app. simpl.
        repeat split; auto. intro E. apply app_eq_nil in E. destruct E; discriminate.
      * apply IH in H. destruct H as [rs1 [rs2 [E [Hne H]]]].
        exists rs1, (rs2 ++ [r]). subst rs. rewrite app_assoc. auto.
    + intros [rs1 [rs2 [E [Hne H]]]].
      induction rs2 as [|x rs2' _] using rev_ind.
      * rewrite app_nil_r in E. subst rs1. left.
        rewrite reports_app in H. exact H.
      * rewrite app_assoc in E. apply app_inj_tail in E. destruct E as [E Ex].
        right. apply IH. exists rs1, rs2'. auto.
Qed.

Lemma maxHeight_fold l : forall acc,
  acc <= fold_left Z.max l acc /\
  (forall x, In x l -> x <= fold_left Z.max l acc) /\
  (fold_left Z.max l acc = acc \/ In (fold_left Z.max l acc) l).
Proof.
  induction l as [|y l IH]; simpl; intros acc.
  - repeat split; [lia | tauto | auto].
  - destruct (IH (Z.max acc y)) as [H1 [H2 H3]]. repeat split.
    + lia.
    + intros x [E|Hin]; [subst; lia | auto].
    + destruct H3 as [H3|H3]; [|auto].
      rewrite H3. destruct (Z.max_spec acc y) as [[_ E]|[_ E]]; rewrite E; auto.
Qed.


(** C9.  Whatever the slides report, starting from the empty collection, no
    two entries of the collection of visible heights have the same slide
    index.  A number reported for a registered index replaces the entry of
    that index where it stands (the collection keeps its length and its
    order); a number reported for a new index appends exactly one entry;
    [null] removes every entry of that index and keeps the others. *)
Theorem visibleHeights_distinct_indices (a : Args) :
  (forall rs, NoDup (indices (visibleHeights (reports a rs init))))
  /\ (forall s i v,
        In i (indices (visibleHeights s)) ->
        let s' := handleVisibleSlideHeightChange a i (Some v) s in
        List.length (visibleHeights s') = List.length (visibleHeights s)
        /\ indices (visibleHeights s') = indices (visibleHeights s)
        /\ (forall k sh,
              nth_error (visibleHeights s) k = Some sh ->
              nth_error (visibleHeights s') k =
              Some (if slideIndex sh =? i
                    then {| slideIndex := i; height := v |} else sh)))
  /\ (forall s i v,
        ~ In i (indices (visibleHeights s)) ->
        visibleHeights (handleVisibleSlideHeightChange a i (Some v) s) =
        visibleHeights s ++ [ {| slideIndex := i; height := v |} ])
  /\ (forall s i,
        let s' := handleVisibleSlideHeightChange a i None s in
        ~ In i (indices (visibleHeights s'))
        /\ (forall sh, slideIndex sh <> i ->
              (In sh (visibleHeights s') <-> In sh (visibleHeights s)))
        /\ visibleHeights s' =
           filter (fun sh => negb (slideIndex sh =? i)) (visibleHeights s)).
Proof.
  split; [|split; [|split]].
  - intros rs. apply NoDup_reports. constructor.
  - intros s i v Hin s'. subst s'. unfold handleVisibleSlideHeightChange; simpl.
    apply existsb_sameIndex in Hin. rewrite Hin.
    split; [apply length_map|]. split; [apply indices_replace|].
    intros k sh Hk. rewrite nth_error_map, Hk. reflexivity.
  - intros s i v Hin. unfold handleVisibleSlideHeightChange; simpl.
    apply existsb_sameIndex_false in Hin. now rewrite Hin.
  - intros s i s'. subst s'. unfold handleVisibleSlideHeightChange; simpl.
    split; [apply indices_removed|]. split; [|reflexivity].
    intros sh Hne. rewrite filter_In. unfold sameIndex.
    apply Z.eqb_neq in Hne. rewrite Hne. simpl. tauto.
Qed.

Lemma visibleHeights_distinct_indices_witness :
  let a := {| adaptiveHeight := true; slidesToShow := 2; numSlides := 5 |} in
  let s := reports a [(0, Some 100); (1, Some 150)] init in
  In 1 (indices (visibleHeights s))
  /\ List.length
       (visibleHeights (handleVisibleSlideHeightChange a 1 (Some 120) s))
     = 2%nat
  /\ ~ In 7 (indices (visibleHeights s))
  /\ visibleHeights (handleVisibleSlideHeightChange a 7 (Some 90) s) =
     visibleHeights s ++ [ {| slideIndex := 7; height := 90 |} ].
Proof.
  intros a s.
  assert (H1 : In 1 (indices (visibleHeights s))) by (simpl; auto).
  assert (H7 : ~ In 7 (indices (visibleHeights s)))
    by (simpl; intros [H|[H|[]]]; discriminate).
  split; [exact H1|]. split.
  - exact (proj1 (proj1 (proj2 (visibleHeights_distinct_indices a)) s 1 120 H1)).
  - split; [exact H7|].
    exact (proj1 (proj2 (proj2 (visibleHeights_distinct_indices a))) s 7 90 H7).
Defined.

(** C1 (as amended).  With adaptiveHeight off the frame height is 'auto'.
    With adaptiveHeight on it is 'auto' on the first render and for as long
    as no report has left at least min(numSlides, ceil(slidesToShow))
    slides registered in the collection; once a report has left that many
    registered, the frame height after every later report is
    max(0, the registered heights) followed by px, also when fewer slides
    are registered by then.  With slidesToShow = 2 and numSlides = 5,
    slide 0 at 100 and slide 1 at 150 give 150px, and the deregistration of
    slide 1 then gives 100px. *)
Theorem frameHeight_two_phase (a : Args) :
  (adaptiveHeight a = false -> forall s, frameHeight a s = "auto"%string)
  /\ (adaptiveHeight a = true ->
        frameHeight a init = "auto"%string
        /\ (forall rs,
              (forall rs1 rs2, rs = rs1 ++ rs2 -> rs1 <> [] ->
                 Z.of_nat (List.length (visibleHeights (reports a rs1 init)))
                 < threshold a) ->
              frameHeight a (reports a rs init) = "auto"%string)
        /\ (forall rs rs',
              rs <> [] ->
              threshold a
              <= Z.of_nat (List.length (visibleHeights (reports a rs init))) ->
              let l := visibleHeights (reports a (rs ++ rs') init) in
              frameHeight a (reports a (rs ++ rs') init) = px (maxHeight l)
              /\ 0 <= maxHeight l
              /\ (forall sh, In sh l -> height sh <= maxHeight l)
              /\ (maxHeight l = 0
                  \/ exists sh, In sh l /\ height sh = maxHeight l)))
  /\ (let a5 := {| adaptiveHeight := true; slidesToShow := 2; numSlides := 5 |} in
      frameHeight a5 (reports a5 [(0, Some 100)] init) = "auto"%string
      /\ frameHeight a5 (reports a5 [(0, Some 100); (1, Some 150)] init)
         = "150px"%string
      /\ frameHeight a5
           (reports a5 [(0, Some 100); (1, Some 150); (1, None)] init)
         = "100px"%string).
Proof.
  split; [|split].
  - intros Ha s. unfold frameHeight. now rewrite Ha.
  - intros Ha. split; [unfold frameHeight; now rewrite Ha|]. split.
    + intros rs Hlow. unfold frameHeight. rewrite Ha.
      destruct (initializedAdaptiveHeight (reports a rs init)) eqn:E; [|reflexivity].
      apply initialized_iff in E. destruct E as [rs1 [rs2 [E [Hne H]]]].
      specialize (Hlow rs1 rs2 E Hne). lia.
    + intros rs rs' Hne Hreach l.
      assert (Hi : initializedAdaptiveHeight (reports a (rs ++ rs') init) = true).
      { rewrite reports_app. apply initialized_stays. apply initialized_iff.
        exists rs, []. rewrite app_nil_r. auto. }
      split; [unfold frameHeight; rewrite Ha, Hi; reflexivity|].
      unfold maxHeight.
      destruct (maxHeight_fold (map height l) 0) as [H1 [H2 H3]].
      split; [exact H1|]. split.
      * intros sh Hin. apply H2. now apply in_map.
      * destruct H3 as [H3|H3]; [now left|right].
        apply in_map_iff in H3. destruct H3 as [sh [E Hin]]. exists sh. auto.
  - vm_compute. auto.
Qed.

Lemma frameHeight_two_phase_witness :
  let a := {| adaptiveHeight := true; slidesToShow := 3 # 2; numSlides := 5 |} in
  let rs := [(4, Some 80); (2, Some 60)] in
  let rs' := [(4, None)] in
  adaptiveHeight a = true
  /\ rs <> []
  /\ threshold a <= Z.of_nat (List.length (visibleHeights (reports a rs init)))
  /\ frameHeight a (reports a (rs ++ rs') init) =
     px (maxHeight (visibleHeights (reports a (rs ++ rs') init)))
  /\ frameHeight {| adaptiveHeight := false; slidesToShow := 2; numSlides := 5 |}
       (reports a rs init) = "auto"%string.
Proof.
  intros a rs rs'.
  assert (Ha : adaptiveHeight a = true) by reflexivity.
  assert (Hne : rs <> []) by discriminate.
  assert (Hreach : threshold a
                   <= Z.of_nat (List.length (visibleHeights (reports a rs init))))
    by (vm_compute; discriminate).
  split; [exact Ha|]. split; [exact Hne|]. split; [exact Hreach|]. split.
  - exact (proj1 (proj2 (proj2 (proj1 (proj2 (frameHeight_two_phase a)) Ha))
                    rs rs' Hne Hreach)).
  - exact (proj1 (frameHeight_two_phase
                    {| adaptiveHeight := false; slidesToShow := 2; numSlides := 5 |})
                 eq_refl (reports a rs init)).
Defined.

(** C1 as stated fails: the code counts the slides that are registered when
    a report arrives, not the distinct slides that have reported.  Slide 0
    reports 100 and deregisters, then slide 1 reports 150: two distinct
    slides have reported, the threshold is 2, and the frame height is still
    'auto'. *)
Lemma frameHeight_distinct_reports_counterexample :
  ~ (forall (a : Args) (rs : list Report),
       adaptiveHeight a = true ->
       threshold a <= distinctReported rs ->
       frameHeight a (reports a rs init) =
       px (maxHeight (visibleHeights (reports a rs init)))).
Proof.
  intros H.
  specialize (H {| adaptiveHeight := true; slidesToShow := 2; numSlides := 5 |}
                [(0, Some 100); (0, None); (1, Some 150)] eq_refl).
  assert (Hthr : threshold {| adaptiveHeight := true; slidesToShow := 2; numSlides := 5 |}
                 <= distinctReported [(0, Some 100); (0, None); (1, Some 150)])
    by (vm_compute; discriminate).
  specialize (H Hthr). vm_compute in H. discriminate.
Qed.

End FrameHeightFacts.

(** * Properties of the carousel controller *)

Module CarouselFacts.
Import Carousel.

Section Facts.

Context {U : Utils} (p : Props).

Lemma count_nonneg : 0 <= count p.
Proof. unfold count. lia. Qed.

Lemma moveSlide_None cur s :
  moveSlide p cur None s =
  snd (setTimeout (SettleTask None (getNextIndex (count p) cur None))
         (if props_disableAnimation p then 40 else speedOrDefault p)
         (setCurrentSlide cur
            (if props_disableAnimation p then s else setAnimation true s))).
Proof. reflexivity. Qed.

Lemma moveSlide_currentSlide cur to s :
  currentSlide (moveSlide p cur to s) =
  match to with Some t => t | None => cur end.
Proof. reflexivity. Qed.

Lemma moveSlide_None_calls cur s : calls (moveSlide p cur None s) = calls s.
Proof. unfold moveSlide; simpl. destruct (props_disableAnimation p); reflexivity. Qed.

Lemma moveSlide_timeouts cur to s :
  timeouts (moveSlide p cur to s) =
  timeouts s ++
  [ {| handle := nextHandle s;
       delay := if props_disableAnimation p then 40 else speedOrDefault p;
       task := SettleTask to (getNextIndex (count p) cur to) |} ].
Proof.
  unfold moveSlide; simpl.
  destruct to, (props_disableAnimation p); reflexivity.
Qed.

Lemma runTask_settle_None n s :
  currentSlide (runTask p (SettleTask None n) s) = currentSlide s
  /\ calls (runTask p (SettleTask None n) s) = calls s
  /\ timeouts (runTask p (SettleTask None n) s) = timeouts s.
Proof.
  simpl. destruct (isMounted s), (props_disableAnimation p); simpl; auto.
Qed.

Lemma find_pending h (l rest : list Timeout) t :
  Forall (fun x => (handle x < h)%positive) l ->
  handle t = h ->
  find (fun x => Pos.eqb (handle x) h) (l ++ t :: rest) = Some t.
Proof.
  intros Hl Ht. induction l as [|x l IH]; simpl.
  - rewrite Ht, Pos.eqb_refl. reflexivity.
  - inversion Hl; subst. destruct (Pos.eqb_spec (handle x) (handle t)); [lia|].
    auto.
Qed.

Lemma filter_pending h (l rest : list Timeout) t :
  Forall (fun x => (handle x < h)%positive) l ->
  handle t = h ->
  Forall (fun x => handle x <> h) rest ->
  filter (fun x => negb (Pos.eqb (handle x) h)) (l ++ t :: rest) = l ++ rest.
Proof.
  intros Hl Ht Hr. induction l as [|x l IH]; simpl.
  - rewrite Ht, Pos.eqb_refl. simpl. subst h.
    induction rest as [|y rest IHr]; simpl; [reflexivity|].
    inversion Hr; subst. destruct (Pos.eqb_spec (handle y) (handle t)); [contradiction|].
    simpl. f_equal. auto.
  - inversion Hl; subst. destruct (Pos.eqb_spec (handle x) (handle t)); [lia|].
    simpl. f_equal. auto.
Qed.

(** Firing a pending timeout whose handle is newer than the ones before it
    runs its task and removes it. *)
Lemma fire_pending h l t rest s1 :
  Forall (fun x => (handle x < h)%positive) l ->
  handle t = h ->
  Forall (fun x => handle x <> h) rest ->
  timeouts s1 = l ++ t :: rest ->
  fire p h s1 =
  runTask p (task t) (setTimeouts (l ++ rest) (nextHandle s1) s1).
Proof.
  intros Hl Ht Hr E. unfold fire, clearTimeout. rewrite E.
  rewrite (find_pending _ _ _ _ Hl Ht), (filter_pending _ _ _ _ Hl Ht Hr).
  reflexivity.
Qed.

Lemma moveSlide_nextHandle cur to s :
  nextHandle (moveSlide p cur to s) = Pos.succ (nextHandle s).
Proof.
  unfold moveSlide; simpl. destruct to, (props_disableAnimation p); reflexivity.
Qed.

Lemma freshHandles_succ s :
  freshHandles s ->
  Forall (fun x => (handle x < Pos.succ (nextHandle s))%positive) (timeouts s).
Proof.
  intros H. eapply Forall_impl; [|exact H]. simpl. intros. lia.
Qed.

(** C7.  [getNextIndex] returns [i + count] when [i < 0], 0 when
    [i = count] (for the count of a list of children, which is not
    negative) and [i] otherwise; so an index within [0, count) stays
    there. *)
Theorem getNextIndex_cases (count i cur : Z) :
  (i < 0 -> getNextIndex count cur (Some i) = i + count)
  /\ (0 <= count -> i = count -> getNextIndex count cur (Some i) = 0)
  /\ (0 <= i -> i <> count -> getNextIndex count cur (Some i) = i)
  /\ (0 < count -> 0 <= i < count ->
      0 <= getNextIndex count cur (Some i) < count).
Proof.
  unfold getNextIndex.
  destruct (Z.ltb_spec i 0), (Z.eqb_spec i count); repeat split; intros; lia.
Qed.


(** C8.  [moveSlide()] without an argument keeps the slide index and calls
    neither beforeSlide nor afterSlide, now or when its timeout fires;
    calling it a second time does the same. *)
Theorem moveSlide_without_argument (s : State) :
  let d := if props_disableAnimation p then 40 else speedOrDefault p in
  let settle := SettleTask None (getNextIndex (count p) (currentSlide s) None) in
  let s1 := moveSlide p (currentSlide s) None s in
  let s2 := moveSlide p (currentSlide s1) None s1 in
  (currentSlide s1 = currentSlide s /\ calls s1 = calls s)
  /\ (currentSlide s2 = currentSlide s /\ calls s2 = calls s)
  /\ timeouts s1 =
     timeouts s ++ [ {| handle := nextHandle s; delay := d; task := settle |} ]
  /\ timeouts s2 =
     timeouts s1 ++ [ {| handle := nextHandle s1; delay := d; task := settle |} ]
  /\ (forall s', currentSlide (runTask p settle s') = currentSlide s'
                 /\ calls (runTask p settle s') = calls s')
  /\ (freshHandles s ->
      let s3 := fire p (nextHandle s1) (fire p (nextHandle s) s2) in
      currentSlide s3 = currentSlide s /\ calls s3 = calls s
      /\ timeouts s3 = timeouts s).
Proof.
  intros d settle s1 s2.
  assert (H1 : currentSlide s1 = currentSlide s) by reflexivity.
  assert (C1 : calls s1 = calls s) by apply moveSlide_None_calls.
  assert (C2 : calls s2 = calls s)
    by (unfold s2; rewrite moveSlide_None_calls; exact C1).
  assert (T1 : timeouts s1 = timeouts s ++
                 [ {| handle := nextHandle s; delay := d; task := settle |} ])
    by apply moveSlide_timeouts.
  assert (T2 : timeouts s2 = timeouts s1 ++
                 [ {| handle := nextHandle s1; delay := d; task := settle |} ])
    by (unfold s2; rewrite moveSlide_timeouts, H1; reflexivity).
  assert (N1 : nextHandle s1 = Pos.succ (nextHandle s))
    by apply moveSlide_nextHandle.
  split; [auto|]. split; [auto|]. split; [exact T1|]. split; [exact T2|].
  split.
  - intros s'. destruct (runTask_settle_None
                           (getNextIndex (count p) (currentSlide s) None) s')
      as [Ea [Eb _]]. auto.
  - intros Hf s3. subst s3.
    rewrite (fire_pending (nextHandle s) (timeouts s)
               {| handle := nextHandle s; delay := d; task := settle |}
               [ {| handle := nextHandle s1; delay := d; task := settle |} ] s2);
      [ | exact Hf | reflexivity
        | constructor; [cbn [handle]; rewrite N1; lia | constructor]
        | rewrite T2, T1, <- app_assoc; reflexivity ].
    cbn [task].
    set (s2' := setTimeouts _ (nextHandle s2) s2).
    destruct (runTask_settle_None
                (getNextIndex (count p) (currentSlide s) None) s2')
      as [Ea [Eb Ec]].
    fold settle in Ea, Eb, Ec.
    rewrite (fire_pending (nextHandle s1) (timeouts s)
               {| handle := nextHandle s1; delay := d; task := settle |}
               [] (runTask p settle s2'));
      [ | rewrite N1; apply freshHandles_succ; exact Hf | reflexivity
        | constructor
        | rewrite Ec; reflexivity ].
    cbn [task]. rewrite app_nil_r.
    set (s3' := setTimeouts _ _ (runTask p settle s2')).
    destruct (runTask_settle_None
                (getNextIndex (count p) (currentSlide s) None) s3')
      as [Fa [Fb Fc]].
    fold settle in Fa, Fb, Fc. rewrite Fa, Fb, Fc.
    unfold s3'. cbn [currentSlide calls timeouts setTimeouts].
    rewrite Ea, Eb. unfold s2'. cbn [currentSlide calls timeouts setTimeouts].
    auto.
Qed.

(** C4.  Without wrap-around, [nextSlide()] at or beyond
    [count - slidesToScroll] and [prevSlide()] at or below 0 are
    [moveSlide()] without an argument: the index stays and neither
    beforeSlide nor afterSlide is called.  In every other case they hand
    the index computed by getNextMoveIndex, resp. getPrevMoveIndex, to
    [moveSlide], which makes it the index.  With count = 6,
    slidesToShow = 3, slidesToScroll = 3 and no wrap-around, [nextSlide()]
    moves from 0 to 3 and a second [nextSlide()] leaves the index at 3. *)
Theorem nextSlide_prevSlide_guarded (s : State) :
  let cur := currentSlide s in
  let next := getNextMoveIndex (props_scrollMode p) (props_wrapAround p) cur
                (count p) (props_slidesToScroll p) (props_slidesToShow p) in
  let prev := getPrevMoveIndex (props_scrollMode p) (props_wrapAround p) cur
                (props_slidesToScroll p) in
  (props_wrapAround p = false -> count p - props_slidesToScroll p <= cur ->
   nextSlide p cur s = moveSlide p cur None s
   /\ currentSlide (nextSlide p cur s) = cur
   /\ calls (nextSlide p cur s) = calls s
   /\ exists t, timeouts (nextSlide p cur s) = timeouts s ++ [t]
        /\ forall s', calls (runTask p (task t) s') = calls s'
                      /\ currentSlide (runTask p (task t) s') = currentSlide s')
  /\ (props_wrapAround p = false -> cur <= 0 ->
      prevSlide p cur s = moveSlide p cur None s
      /\ currentSlide (prevSlide p cur s) = cur
      /\ calls (prevSlide p cur s) = calls s)
  /\ (props_wrapAround p = true \/ cur < count p - props_slidesToScroll p ->
      nextSlide p cur s = moveSlide p cur (Some next) s
      /\ currentSlide (nextSlide p cur s) = next)
  /\ (props_wrapAround p = true \/ 0 < cur ->
      prevSlide p cur s = moveSlide p cur (Some prev) s
      /\ currentSlide (prevSlide p cur s) = prev)
  /\ (let p6 := Examples.sixSlides in
      let s0 := initialState p6 in
      let s1 := @nextSlide SpecUtils.utils p6 (currentSlide s0) s0 in
      let s2 := @nextSlide SpecUtils.utils p6 (currentSlide s1) s1 in
      currentSlide s0 = 0 /\ currentSlide s1 = 3 /\ currentSlide s2 = 3
      /\ calls s2 = calls s1).
Proof.
  intros cur next prev. split; [|split; [|split; [|split]]].
  - intros Hw Hb.
    assert (E : nextSlide p cur s = moveSlide p cur None s).
    { unfold nextSlide. rewrite Hw. simpl.
      destruct (Z.ltb_spec cur (count p - props_slidesToScroll p)); [lia|reflexivity]. }
    rewrite E. split; [reflexivity|]. split; [reflexivity|].
    split; [apply moveSlide_None_calls|].
    eexists. split; [apply moveSlide_timeouts|].
    intros s'. cbn [task].
    destruct (runTask_settle_None (getNextIndex (count p) cur None) s')
      as [Ea [Eb _]]. auto.
  - intros Hw Hb.
    assert (E : prevSlide p cur s = moveSlide p cur None s).
    { unfold prevSlide. rewrite Hw. simpl.
      destruct (Z.ltb_spec 0 cur); [lia|reflexivity]. }
    rewrite E. split; [reflexivity|]. split; [reflexivity|].
    apply moveSlide_None_calls.
  - intros H.
    assert (E : nextSlide p cur s = moveSlide p cur (Some next) s).
    { unfold nextSlide, next. destruct H as [H|H]; [rewrite H; reflexivity|].
      apply Z.ltb_lt in H. rewrite H, orb_true_r. reflexivity. }
    rewrite E. split; reflexivity.
  - intros H.
    assert (E : prevSlide p cur s = moveSlide p cur (Some prev) s).
    { unfold prevSlide, prev. destruct H as [H|H]; [rewrite H; reflexivity|].
      apply Z.ltb_lt in H. rewrite H, orb_true_r. reflexivity. }
    rewrite E. split; reflexivity.
  - vm_compute. auto.
Qed.



Lemma Qle_bool_false x y : Qle_bool x y = false <-> (y < x)%Q.
Proof.
  split.
  - intros H. apply Qnot_le_lt. intros Hle.
    apply Qle_bool_iff in Hle. congruence.
  - intros H. destruct (Qle_bool x y) eqn:E; [|reflexivity].
    apply Qle_bool_iff in E. apply Qlt_not_le in H. contradiction.
Qed.

Lemma Qlt_bool_iff x y : Qlt_bool x y = true <-> (x < y)%Q.
Proof.
  unfold Qlt_bool. rewrite negb_true_iff. apply Qle_bool_false.
Qed.

Lemma Qlt_bool_false x y : Qlt_bool x y = false <-> (y <= x)%Q.
Proof.
  unfold Qlt_bool. rewrite negb_false_iff. apply Qle_bool_iff.
Qed.





Lemma clearTimer_currentSlide s : currentSlide (clearTimer s) = currentSlide s.
Proof. unfold clearTimer. destruct (timer s); reflexivity. Qed.

Lemma clearTimer_timeouts_incl s : incl (timeouts (clearTimer s)) (timeouts s).
Proof.
  unfold clearTimer. destruct (timer s); [|apply incl_refl].
  simpl. apply incl_filter.
Qed.

Lemma clearTimer_cancels s h :
  timer s = Some h -> ~ In h (map handle (timeouts (clearTimer s))).
Proof.
  intros E. unfold clearTimer. rewrite E. simpl.
  rewrite in_map_iff. intros [t [Eh Hin]]. apply filter_In in Hin.
  destruct Hin as [_ Hin]. rewrite Eh, Pos.eqb_refl in Hin. discriminate.
Qed.

Lemma clearTimer_no_autoplay s :
  autoplayTimerTracked s ->
  forall t, In t (timeouts (clearTimer s)) -> isAutoplayTask (task t) = false.
Proof.
  intros Htr t Hin. destruct (isAutoplayTask (task t)) eqn:E; [|reflexivity].
  exfalso. pose proof (clearTimer_timeouts_incl s t Hin) as Hin0.
  pose proof (Htr t Hin0 E) as Ht.
  apply (clearTimer_cancels s (handle t) Ht). now apply in_map.
Qed.

(** C3 (as amended).  With wrap-around enabled and autoplay disabled, the
    wrap-around correction effect runs after every change of the index.
    If the index is <= -slidesToShow it schedules, after speed + 10 ms
    (speed is the configured speed, 500 when that is 0, and 0 when
    animation is disabled), a correction that sets the index to
    count + index; from index = -slidesToShow the index is
    count - slidesToShow once the correction has fired.  Otherwise, if the
    index is >= count, it schedules after the same delay a correction that
    sets the index to index - count. *)
Theorem wrapAroundEffect_correction (prev r s : State) :
  props_wrapAround p = true -> props_autoplay p = false ->
  let cur := currentSlide r in
  let d := (if props_disableAnimation p then 0 else speedOrDefault p) + 10 in
  let scheduled t := {| handle := nextHandle s; delay := d; task := t |} in
  (currentSlide prev <> cur ->
   commit p prev r = wrapAroundEffect p r (autoplayCleanup r))
  /\ (cur <= - props_slidesToShow p ->
      timeouts (wrapAroundEffect p r s) = timeouts s ++ [scheduled (WrapPrevTask cur)]
      /\ currentSlide (wrapAroundEffect p r s) = currentSlide s
      /\ (forall s', isMounted s' = true ->
            currentSlide (runTask p (WrapPrevTask cur) s') = count p + cur)
      /\ (freshHandles s -> isMounted s = true ->
          currentSlide (fire p (nextHandle s) (wrapAroundEffect p r s))
          = count p + cur
          /\ (cur = - props_slidesToShow p ->
              currentSlide (fire p (nextHandle s) (wrapAroundEffect p r s))
              = count p - props_slidesToShow p)))
  /\ (- props_slidesToShow p < cur -> count p <= cur ->
      timeouts (wrapAroundEffect p r s) = timeouts s ++ [scheduled (WrapNextTask cur)]
      /\ currentSlide (wrapAroundEffect p r s) = currentSlide s
      /\ (forall s', isMounted s' = true ->
            currentSlide (runTask p (WrapNextTask cur) s') = cur - count p)
      /\ (freshHandles s -> isMounted s = true ->
          currentSlide (fire p (nextHandle s) (wrapAroundEffect p r s))
          = cur - count p))
  /\ (- props_slidesToShow p < cur -> cur < count p ->
      wrapAroundEffect p r s = s).
Proof.
  intros Hw Ha cur d scheduled.
  split; [|split; [|split]].
  - intros Hne. unfold commit, autoplayCorrectionEffect, autoplayEffect.
    apply Z.eqb_neq in Hne. fold cur. rewrite Hne, Ha. cbn [negb orb andb].
    rewrite !orb_true_r. reflexivity.
  - intros Hle.
    assert (E : wrapAroundEffect p r s =
                snd (setTimeout (WrapPrevTask cur) d s)).
    { unfold wrapAroundEffect, wrapSpeed. rewrite Hw, Ha. cbn [negb andb].
      fold cur. apply Z.leb_le in Hle. rewrite Hle. reflexivity. }
    rewrite E. split; [reflexivity|]. split; [reflexivity|].
    assert (R : forall s', isMounted s' = true ->
                  currentSlide (runTask p (WrapPrevTask cur) s') = count p + cur).
    { intros s' Hm. simpl. rewrite Hm. simpl. lia. }
    split; [exact R|]. intros Hf Hm.
    rewrite (fire_pending (nextHandle s) (timeouts s)
               (scheduled (WrapPrevTask cur)) []);
      [ | exact Hf | reflexivity | constructor | reflexivity ].
    cbn [task scheduled]. rewrite R by exact Hm. split; [reflexivity | lia].
  - intros Hgt Hle.
    assert (E : wrapAroundEffect p r s =
                snd (setTimeout (WrapNextTask cur) d s)).
    { unfold wrapAroundEffect, wrapSpeed. rewrite Hw, Ha. cbn [negb andb].
      fold cur. destruct (Z.leb_spec cur (- props_slidesToShow p)); [lia|].
      apply Z.leb_le in Hle. rewrite Hle. reflexivity. }
    rewrite E. split; [reflexivity|]. split; [reflexivity|].
    assert (R : forall s', isMounted s' = true ->
                  currentSlide (runTask p (WrapNextTask cur) s') = cur - count p).
    { intros s' Hm. simpl. rewrite Hm. reflexivity. }
    split; [exact R|]. intros Hf Hm.
    rewrite (fire_pending (nextHandle s) (timeouts s)
               (scheduled (WrapNextTask cur)) []);
      [ | exact Hf | reflexivity | constructor | reflexivity ].
    cbn [task scheduled]. rewrite R by exact Hm. reflexivity.
  - intros Hgt Hlt. unfold wrapAroundEffect. rewrite Hw, Ha. cbn [negb andb].
    fold cur. destruct (Z.leb_spec cur (- props_slidesToShow p)); [lia|].
    destruct (Z.leb_spec (count p) cur); [lia|]. reflexivity.
Qed.

(** C5 (as amended).  With autoplay and wrap-around on and no animation in
    progress, the autoplay correction acts at once: an index above count
    becomes index - count, an index below 0 becomes count + index, no
    timeout is scheduled and the timeout of [timer.current] is cancelled.
    The new index lies in [0, count) when the old one was within one count
    of that range (count < index < 2 count, or -count <= index < 0). *)
Theorem autoplayCorrectionEffect_correction (r s : State) :
  props_autoplay p = true -> props_wrapAround p = true ->
  animation r = false ->
  let cur := currentSlide r in
  let s' := autoplayCorrectionEffect p r s in
  (count p < cur -> currentSlide s' = cur - count p)
  /\ (cur < 0 -> currentSlide s' = count p + cur)
  /\ (count p < cur \/ cur < 0 ->
      incl (timeouts s') (timeouts s)
      /\ (forall h, timer s = Some h -> ~ In h (map handle (timeouts s')))
      /\ (autoplayTimerTracked s ->
          forall t, In t (timeouts s') -> isAutoplayTask (task t) = false))
  /\ (count p < cur < 2 * count p \/ - count p <= cur < 0 ->
      0 <= currentSlide s' < count p)
  /\ (0 <= cur <= count p -> s' = s).
Proof.
  intros Ha Hw Han cur s'.
  assert (Hhi : count p < cur ->
                s' = clearTimer (setCurrentSlide (cur - count p) s)).
  { intros H. unfold s', autoplayCorrectionEffect. rewrite Ha, Hw, Han.
    cbn [negb andb]. fold cur. apply Z.ltb_lt in H. rewrite H. reflexivity. }
  assert (Hlo : cur < 0 ->
                s' = clearTimer (setCurrentSlide (count p - - cur) s)).
  { intros H. unfold s', autoplayCorrectionEffect. rewrite Ha, Hw, Han.
    cbn [negb andb]. fold cur. pose proof count_nonneg.
    destruct (Z.ltb_spec (count p) cur); [lia|].
    apply Z.ltb_lt in H. rewrite H. reflexivity. }
  assert (Ehi : count p < cur -> currentSlide s' = cur - count p).
  { intros H. rewrite (Hhi H), clearTimer_currentSlide. reflexivity. }
  assert (Elo : cur < 0 -> currentSlide s' = count p + cur).
  { intros H. rewrite (Hlo H), clearTimer_currentSlide. simpl. lia. }
  split; [exact Ehi|]. split; [exact Elo|]. split; [|split].
  - intros H.
    assert (E : exists v, s' = clearTimer (setCurrentSlide v s))
      by (destruct H as [H|H]; eexists; [apply (Hhi H) | apply (Hlo H)]).
    destruct E as [v E]. rewrite E. split; [|split].
    + apply (clearTimer_timeouts_incl (setCurrentSlide v s)).
    + intros h Hh. apply (clearTimer_cancels (setCurrentSlide v s)). exact Hh.
    + intros Htr. apply (clearTimer_no_autoplay (setCurrentSlide v s)). exact Htr.
  - intros [H|H]; [rewrite Ehi | rewrite Elo]; lia.
  - intros H. unfold s', autoplayCorrectionEffect. rewrite Ha, Hw, Han.
    cbn [negb andb]. fold cur.
    destruct (Z.ltb_spec (count p) cur); [lia|].
    destruct (Z.ltb_spec cur 0); [lia|]. reflexivity.
Qed.

End Facts.

Lemma getNextIndex_cases_witness :
  (-2 < 0 /\ getNextIndex 5 0 (Some (-2)) = 3)
  /\ (0 <= 5 /\ getNextIndex 5 0 (Some 5) = 0)
  /\ (0 <= 4 /\ 4 <> 5 /\ getNextIndex 5 0 (Some 4) = 4)
  /\ (0 < 5 /\ 0 <= 4 < 5 /\ 0 <= getNextIndex 5 0 (Some 4) < 5).
Proof.
  assert (H1 : -2 < 0) by lia.
  assert (H2 : 0 <= 5) by lia.
  assert (H3 : 0 <= 4) by lia.
  assert (H4 : 4 <> 5) by lia.
  assert (H5 : 0 < 5) by lia.
  assert (H6 : 0 <= 4 < 5) by lia.
  split; [split; [exact H1|]|split; [split; [exact H2|]|split]].
  - exact (proj1 (getNextIndex_cases 5 (-2) 0) H1).
  - exact (proj1 (proj2 (getNextIndex_cases 5 5 0)) H2 eq_refl).
  - split; [exact H3|]. split; [exact H4|].
    exact (proj1 (proj2 (proj2 (getNextIndex_cases 5 4 0))) H3 H4).
  - split; [exact H5|]. split; [exact H6|].
    exact (proj2 (proj2 (proj2 (getNextIndex_cases 5 4 0))) H5 H6).
Defined.


Lemma moveSlide_without_argument_witness :
  let p := Examples.sixSlides in
  let s := initialState p in
  let s1 := @moveSlide SpecUtils.utils p (currentSlide s) None s in
  let s2 := @moveSlide SpecUtils.utils p (currentSlide s1) None s1 in
  let s3 := @fire SpecUtils.utils p (nextHandle s1)
              (@fire SpecUtils.utils p (nextHandle s) s2) in
  freshHandles s
  /\ currentSlide s3 = currentSlide s /\ calls s3 = calls s
  /\ timeouts s3 = timeouts s.
Proof.
  intros p s s1 s2 s3.
  assert (Hf : freshHandles s) by constructor.
  split; [exact Hf|].
  exact (proj2 (proj2 (proj2 (proj2 (proj2
           (@moveSlide_without_argument SpecUtils.utils p s))))) Hf).
Defined.

Lemma nextSlide_prevSlide_guarded_witness :
  let p := Examples.sixSlides in
  let s := Examples.renderAt p 3 in
  props_wrapAround p = false
  /\ count p - props_slidesToScroll p <= currentSlide s
  /\ currentSlide (@nextSlide SpecUtils.utils p (currentSlide s) s) = 3
  /\ calls (@nextSlide SpecUtils.utils p (currentSlide s) s) = calls s
  /\ (props_wrapAround p = true \/ 0 < currentSlide s)
  /\ currentSlide (@prevSlide SpecUtils.utils p (currentSlide s) s) = 0.
Proof.
  intros p s.
  assert (Hw : props_wrapAround p = false) by reflexivity.
  assert (Hb : count p - props_slidesToScroll p <= currentSlide s)
    by (vm_compute; discriminate).
  assert (Hp : props_wrapAround p = true \/ 0 < currentSlide s)
    by (right; reflexivity).
  destruct (@nextSlide_prevSlide_guarded SpecUtils.utils p s)
    as [G1 [_ [_ [G4 _]]]].
  destruct (G1 Hw Hb) as [_ [E1 [E2 _]]].
  destruct (G4 Hp) as [_ E4].
  split; [exact Hw|]. split; [exact Hb|]. split; [exact E1|].
  split; [exact E2|]. split; [exact Hp|]. exact E4.
Defined.



Lemma wrapAroundEffect_correction_witness :
  let p := Examples.fiveSlidesWrapped in
  let r := Examples.renderAt p (-1) in
  let r5 := Examples.renderAt p 5 in
  props_wrapAround p = true /\ props_autoplay p = false
  /\ currentSlide r <= - props_slidesToShow p
  /\ freshHandles r /\ isMounted r = true
  /\ currentSlide (@fire SpecUtils.utils p (nextHandle r) (wrapAroundEffect p r r)) = 4
  /\ - props_slidesToShow p < currentSlide r5 /\ count p <= currentSlide r5
  /\ freshHandles r5 /\ isMounted r5 = true
  /\ currentSlide (@fire SpecUtils.utils p (nextHandle r5) (wrapAroundEffect p r5 r5))
     = 0.
Proof.
  intros p r r5.
  assert (Hw : props_wrapAround p = true) by reflexivity.
  assert (Ha : props_autoplay p = false) by reflexivity.
  assert (H1 : currentSlide r <= - props_slidesToShow p)
    by (vm_compute; discriminate).
  assert (Hf : freshHandles r) by constructor.
  assert (Hm : isMounted r = true) by reflexivity.
  assert (H2 : - props_slidesToShow p < currentSlide r5) by reflexivity.
  assert (H3 : count p <= currentSlide r5) by (vm_compute; discriminate).
  assert (Hf5 : freshHandles r5) by constructor.
  assert (Hm5 : isMounted r5 = true) by reflexivity.
  destruct (@wrapAroundEffect_correction SpecUtils.utils p r r r Hw Ha)
    as [_ [P _]].
  destruct (@wrapAroundEffect_correction SpecUtils.utils p r5 r5 r5 Hw Ha)
    as [_ [_ [N _]]].
  destruct (P H1) as [_ [_ [_ F]]]. destruct (F Hf Hm) as [E _].
  destruct (N H2 H3) as [_ [_ [_ F5]]].
  split; [exact Hw|]. split; [exact Ha|]. split; [exact H1|].
  split; [exact Hf|]. split; [exact Hm|]. split; [exact E|].
  split; [exact H2|]. split; [exact H3|]. split; [exact Hf5|].
  split; [exact Hm5|]. exact (F5 Hf5 Hm5).
Defined.

(** C3 as stated fails: with autoplay on, the wrap-around effect schedules
    nothing, whatever the index. *)
Lemma wrapAroundEffect_autoplay_counterexample :
  ~ (forall (p : Props) (r s : State),
       props_wrapAround p = true ->
       count p <= currentSlide r ->
       exists t, In t (timeouts (wrapAroundEffect p r s))
                 /\ task t = WrapNextTask (currentSlide r)).
Proof.
  intros H.
  destruct (H Examples.fiveSlidesAutoplay
              (Examples.renderAt Examples.fiveSlidesAutoplay 5)
              (Examples.renderAt Examples.fiveSlidesAutoplay 5) eq_refl)
    as [t [Hin _]].
  - vm_compute. discriminate.
  - exact Hin.
Qed.

Lemma autoplayCorrectionEffect_correction_witness :
  let p := Examples.fiveSlidesAutoplay in
  let r := Examples.renderAt p 6 in
  let s := snd (setTimeout (SettleTask (Some 6) 6) 500
                  (autoplayEffect p (Examples.renderAt p 5)
                     (Examples.renderAt p 6))) in
  props_autoplay p = true /\ props_wrapAround p = true
  /\ animation r = false
  /\ count p < currentSlide r < 2 * count p
  /\ autoplayTimerTracked s
  /\ timer s = Some 1%positive
  /\ currentSlide (autoplayCorrectionEffect p r s) = 1
  /\ 0 <= currentSlide (autoplayCorrectionEffect p r s) < count p
  /\ ~ In 1%positive (map handle (timeouts (autoplayCorrectionEffect p r s)))
  /\ (forall t, In t (timeouts (autoplayCorrectionEffect p r s)) ->
                isAutoplayTask (task t) = false).
Proof.
  intros p r s.
  assert (Ha : props_autoplay p = true) by reflexivity.
  assert (Hw : props_wrapAround p = true) by reflexivity.
  assert (Hn : animation r = false) by reflexivity.
  assert (Hr : count p < currentSlide r < 2 * count p)
    by (split; reflexivity).
  assert (Htr : autoplayTimerTracked s).
  { intros t [E|[E|[]]] Ht; subst t; [reflexivity | discriminate Ht]. }
  assert (Ht : timer s = Some 1%positive) by reflexivity.
  destruct (autoplayCorrectionEffect_correction p r s Ha Hw Hn)
    as [E1 [_ [C [R _]]]].
  destruct (C (or_introl (proj1 Hr))) as [_ [C1 C2]].
  split; [exact Ha|]. split; [exact Hw|]. split; [exact Hn|].
  split; [exact Hr|]. split; [exact Htr|]. split; [exact Ht|].
  split; [exact (E1 (proj1 Hr))|]. split; [exact (R (or_introl Hr))|].
  split; [exact (C1 1%positive Ht)|]. exact (C2 Htr).
Defined.

(** C5 as stated fails: one count is subtracted or added, so an index two
    counts or more beyond the range is not brought back into it.  With
    count = 3 and slidesToScroll = 3, the index 6 becomes 3. *)
Lemma autoplayCorrectionEffect_range_counterexample :
  ~ (forall (p : Props) (r s : State),
       props_autoplay p = true -> props_wrapAround p = true ->
       animation r = false ->
       count p < currentSlide r \/ currentSlide r < 0 ->
       0 <= currentSlide (autoplayCorrectionEffect p r s) < count p).
Proof.
  intros H.
  specialize (H Examples.threeSlidesAutoplay
                (Examples.renderAt Examples.threeSlidesAutoplay 6)
                (Examples.renderAt Examples.threeSlidesAutoplay 6)
                eq_refl eq_refl eq_refl (or_introl eq_refl)).
  vm_compute in H. destruct H as [_ H]. discriminate H.
Qed.

(** The index 6 of the counterexample is where autoplay leads: from 0,
    [nextSlide()] gives 3, which is not above count and is left alone, and
    the next [nextSlide()] gives 6, which the correction turns into 3. *)
Example autoplay_reaches_twice_count :
  let p := Examples.threeSlidesAutoplay in
  let s0 := Examples.renderAt p 0 in
  let s1 := @runTask SpecUtils.utils p (AutoplayTask (currentSlide s0)) s0 in
  let s1' := autoplayCorrectionEffect p (setAnimation false s1)
               (setAnimation false s1) in
  let s2 := @runTask SpecUtils.utils p (AutoplayTask (currentSlide s1')) s1' in
  let s2' := autoplayCorrectionEffect p (setAnimation false s2)
               (setAnimation false s2) in
  currentSlide s1 = 3 /\ currentSlide s1' = 3
  /\ currentSlide s2 = 6 /\ currentSlide s2' = 3 /\ count p = 3.
Proof. vm_compute. auto. Qed.

End CarouselFacts.

(** * Further properties of the adaptive-height hook *)

Module HeightMapFacts.
Import FrameHeight HeightMap.

Lemma replaceEntry_hit i v sh :
  sameIndex i sh = true ->
  replaceEntry i v sh = {| slideIndex := i; height := v |}.
Proof. intros E. unfold replaceEntry. now rewrite E. Qed.

Lemma replaceEntry_miss i v sh :
  sameIndex i sh = false -> replaceEntry i v sh = sh.
Proof. intros E. unfold replaceEntry. now rewrite E. Qed.

Lemma sameIndex_new i v : sameIndex i {| slideIndex := i; height := v |} = true.
Proof. unfold sameIndex. simpl. apply Z.eqb_refl. Qed.

Lemma sameIndex_other i j sh :
  j <> i -> sameIndex j sh = true -> sameIndex i sh = false.
Proof.
  unfold sameIndex. intros Hne E. apply Z.eqb_eq in E. apply Z.eqb_neq. lia.
Qed.

Lemma lookup_replace_same i v l :
  existsb (sameIndex i) l = true ->
  lookup i (map (replaceEntry i v) l) = Some {| slideIndex := i; height := v |}.
Proof.
  unfold lookup. induction l as [|sh l IH]; simpl; [discriminate|].
  destruct (sameIndex i sh) eqn:E; simpl.
  - intros _. rewrite (replaceEntry_hit _ _ _ E), sameIndex_new. reflexivity.
  - rewrite (replaceEntry_miss _ _ _ E), E. exact IH.
Qed.

Lemma lookup_replace_other i j v l :
  j <> i -> lookup i (map (replaceEntry j v) l) = lookup i l.
Proof.
  intros Hne. unfold lookup. induction l as [|sh l IH]; simpl; [reflexivity|].
  destruct (sameIndex j sh) eqn:E.
  - rewrite (replaceEntry_hit _ _ _ E).
    rewrite (sameIndex_other i j sh Hne E).
    rewrite (sameIndex_other i j _ Hne (sameIndex_new j v)). exact IH.
  - rewrite (replaceEntry_miss _ _ _ E).
    destruct (sameIndex i sh); [reflexivity | exact IH].
Qed.

Lemma lookup_app i l l' :
  lookup i (l ++ l') =
  match lookup i l with Some sh => Some sh | None => lookup i l' end.
Proof.
  unfold lookup. induction l as [|sh l IH]; simpl; [reflexivity|].
  destruct (sameIndex i sh); [reflexivity | exact IH].
Qed.

Lemma lookup_none i l : existsb (sameIndex i) l = false -> lookup i l = None.
Proof.
  unfold lookup. induction l as [|sh l IH]; simpl; [reflexivity|].
  destruct (sameIndex i sh); [discriminate | exact IH].
Qed.

Lemma lookup_filter_same i l :
  lookup i (filter (fun sh => negb (sameIndex i sh)) l) = None.
Proof.
  unfold lookup. induction l as [|sh l IH]; simpl; [reflexivity|].
  destruct (sameIndex i sh) eqn:E; simpl; [exact IH|]. rewrite E. exact IH.
Qed.

Lemma lookup_filter_other i j l :
  j <> i -> lookup i (filter (fun sh => negb (sameIndex j sh)) l) = lookup i l.
Proof.
  intros Hne. unfold lookup. induction l as [|sh l IH]; simpl; [reflexivity|].
  destruct (sameIndex j sh) eqn:E; simpl.
  - unfold sameIndex in *. apply Z.eqb_eq in E.
    destruct (Z.eqb_spec (slideIndex sh) i); [congruence | exact IH].
  - destruct (sameIndex i sh); [reflexivity | exact IH].
Qed.

Lemma visibleHeights_step a i h s :
  visibleHeights (handleVisibleSlideHeightChange a i h s) =
  match h with
  | None => filter (fun sh => negb (sameIndex i sh)) (visibleHeights s)
  | Some v =>
      if existsb (sameIndex i) (visibleHeights s)
      then map (replaceEntry i v) (visibleHeights s)
      else visibleHeights s ++ [ {| slideIndex := i; height := v |} ]
  end.
Proof. reflexivity. Qed.

(** X1.  A report is a keyed update: after slide [j] reports [h] (a number
    or [null]), the height registered for [j] is [h] and the height
    registered for every other slide is what it was. *)
Theorem heightOf_report (a : Args) (j : Z) (h : option Z) (s : State) (i : Z) :
  heightOf i (handleVisibleSlideHeightChange a j h s) =
  if j =? i then h else heightOf i s.
Proof.
  unfold heightOf. rewrite visibleHeights_step.
  destruct (Z.eqb_spec j i) as [E|Hne].
  - subst j. destruct h as [v|].
    + destruct (existsb (sameIndex i) (visibleHeights s)) eqn:F.
      * rewrite lookup_replace_same by exact F. reflexivity.
      * rewrite lookup_app, (lookup_none _ _ F). unfold lookup.
        simpl. rewrite sameIndex_new. reflexivity.
    + rewrite lookup_filter_same. reflexivity.
  - destruct h as [v|].
    + destruct (existsb (sameIndex j) (visibleHeights s)).
      * rewrite lookup_replace_other by exact Hne. reflexivity.
      * rewrite lookup_app. destruct (lookup i (visibleHeights s)); [reflexivity|].
        unfold lookup, sameIndex. simpl.
        destruct (Z.eqb_spec j i); [contradiction | reflexivity].
    + rewrite lookup_filter_other by exact Hne. reflexivity.
Qed.

Lemma heightOf_reports a rs : forall s i,
  heightOf i (reports a rs s) =
  fold_left (fun acc r => if fst r =? i then snd r else acc) rs (heightOf i s).
Proof.
  induction rs as [|r rs IH]; simpl; intros s i; [reflexivity|].
  rewrite IH. unfold report. rewrite heightOf_report. reflexivity.
Qed.

(** X2.  After any sequence of reports from the empty collection, the
    height registered for a slide is the one it reported last, and no
    height is registered for a slide that never reported or whose last
    report was [null]. *)
Theorem heightOf_last_report (a : Args) (rs : list Report) (i : Z) :
  heightOf i (reports a rs init) = lastReport i rs.
Proof. apply heightOf_reports. Qed.

Lemma replaceEntry_idem i v sh :
  replaceEntry i v (replaceEntry i v sh) = replaceEntry i v sh.
Proof.
  destruct (sameIndex i sh) eqn:E.
  - rewrite (replaceEntry_hit _ _ _ E).
    apply replaceEntry_hit, sameIndex_new.
  - rewrite (replaceEntry_miss _ _ _ E). apply (replaceEntry_miss _ _ _ E).
Qed.

Lemma replaceEntry_absent i v l :
  existsb (sameIndex i) l = false -> map (replaceEntry i v) l = l.
Proof.
  induction l as [|sh l IH]; simpl; [reflexivity|].
  destruct (sameIndex i sh) eqn:E; [discriminate|].
  simpl. intros H. rewrite (replaceEntry_miss _ _ _ E). now rewrite IH.
Qed.

Lemma existsb_replace i v l :
  existsb (sameIndex i) (map (replaceEntry i v) l) = existsb (sameIndex i) l.
Proof.
  induction l as [|sh l IH]; simpl; [reflexivity|]. rewrite IH. f_equal.
  destruct (sameIndex i sh) eqn:E.
  - rewrite (replaceEntry_hit _ _ _ E). apply sameIndex_new.
  - rewrite (replaceEntry_miss _ _ _ E). exact E.
Qed.

Lemma filter_idem {A} (f : A -> bool) l : filter f (filter f l) = filter f l.
Proof.
  induction l as [|x l IH]; simpl; [reflexivity|].
  destruct (f x) eqn:E; simpl; [rewrite E, IH; reflexivity | exact IH].
Qed.

(** X3.  A report is idempotent: a slide that reports the same value (or
    [null]) twice in a row leaves the hook in the state the first report
    produced. *)
Theorem report_idempotent (a : Args) (i : Z) (h : option Z) (s : State) :
  handleVisibleSlideHeightChange a i h (handleVisibleSlideHeightChange a i h s)
  = handleVisibleSlideHeightChange a i h s.
Proof.
  set (s1 := handleVisibleSlideHeightChange a i h s).
  assert (E : visibleHeights (handleVisibleSlideHeightChange a i h s1)
              = visibleHeights s1).
  { rewrite visibleHeights_step. unfold s1. rewrite visibleHeights_step.
    destruct h as [v|]; [|apply filter_idem].
    destruct (existsb (sameIndex i) (visibleHeights s)) eqn:F.
    - rewrite existsb_replace, F. rewrite map_map.
      apply map_ext. intros sh. apply replaceEntry_idem.
    - rewrite existsb_app, F. simpl. rewrite sameIndex_new. simpl.
      rewrite map_app, (replaceEntry_absent _ _ _ F). simpl.
      rewrite (replaceEntry_hit _ _ _ (sameIndex_new i v)). reflexivity. }
  assert (B : initializedAdaptiveHeight (handleVisibleSlideHeightChange a i h s1)
              = initializedAdaptiveHeight s1).
  { rewrite FrameHeightFacts.initialized_step, E.
    pose proof (FrameHeightFacts.initialized_step a i h s) as H1.
    fold s1 in H1. rewrite H1.
    destruct (threshold a <=? Z.of_nat (List.length (visibleHeights s1)));
      reflexivity. }
  destruct (handleVisibleSlideHeightChange a i h s1) as [l2 b2].
  destruct s1 as [l1 b1]. simpl in E, B. subst. reflexivity.
Qed.

Lemma indices_step_incl a j h s :
  incl (indices (visibleHeights (handleVisibleSlideHeightChange a j h s)))
       (indices (visibleHeights s) ++ reportedIndices [(j, h)]).
Proof.
  rewrite visibleHeights_step. destruct h as [v|]; simpl.
  - destruct (existsb (sameIndex j) (visibleHeights s)).
    + change (map (replaceEntry j v) (visibleHeights s))
        with (map (fun heightInfo =>
                     if sameIndex j heightInfo
                     then {| slideIndex := j; height := v |}
                     else heightInfo) (visibleHeights s)).
      rewrite FrameHeightFacts.indices_replace. apply incl_appl, incl_refl.
    + unfold indices. rewrite map_app. apply incl_refl.
  - rewrite app_nil_r. intros x Hx.
    eapply FrameHeightFacts.indices_filter_incl. exact Hx.
Qed.

Lemma reportedIndices_app rs1 rs2 :
  reportedIndices (rs1 ++ rs2) = reportedIndices rs1 ++ reportedIndices rs2.
Proof.
  induction rs1 as [|[i [v|]] rs1 IH]; simpl; [reflexivity| |exact IH].
  now rewrite IH.
Qed.

Lemma indices_reports_incl a rs : forall s,
  incl (indices (visibleHeights (reports a rs s)))
       (indices (visibleHeights s) ++ reportedIndices rs).
Proof.
  induction rs as [|[j h] rs IH]; intros s.
  - simpl. rewrite app_nil_r. apply incl_refl.
  - change (reports a ((j, h) :: rs) s)
      with (reports a rs (handleVisibleSlideHeightChange a j h s)).
    change ((j, h) :: rs) with ([(j, h)] ++ rs).
    rewrite reportedIndices_app, app_assoc.
    eapply incl_tran; [apply IH|].
    apply incl_app; [apply incl_appl, indices_step_incl | apply incl_appr, incl_refl].
Qed.

Lemma distinctReported_app rs1 rs2 :
  distinctReported rs1 <= distinctReported (rs1 ++ rs2).
Proof.
  unfold distinctReported. apply Nat2Z.inj_le.
  apply NoDup_incl_length; [apply NoDup_nodup|].
  intros x Hx. apply nodup_In in Hx. apply nodup_In.
  rewrite reportedIndices_app. apply in_or_app. now left.
Qed.

Lemma registered_le_reporters a rs :
  Z.of_nat (List.length (visibleHeights (reports a rs init)))
  <= distinctReported rs.
Proof.
  unfold distinctReported. apply Nat2Z.inj_le.
  replace (List.length (visibleHeights (reports a rs init)))
    with (List.length (indices (visibleHeights (reports a rs init))))
    by (unfold indices; apply length_map).
  apply NoDup_incl_length.
  - apply FrameHeightFacts.NoDup_reports. constructor.
  - intros x Hx. apply nodup_In.
    apply (indices_reports_incl a rs init) in Hx. exact Hx.
Qed.

(** X4.  The collection never holds more entries than there are distinct
    slides that have reported a number, and the hook is never initialised
    before at least min(numSlides, ceil(slidesToShow)) distinct slides have
    done so. *)
Theorem initialized_needs_reporters (a : Args) (rs : list Report) :
  Z.of_nat (List.length (visibleHeights (reports a rs init)))
  <= distinctReported rs
  /\ (initializedAdaptiveHeight (reports a rs init) = true ->
      rs <> [] /\ threshold a <= distinctReported rs).
Proof.
  split; [apply registered_le_reporters|].
  intros H. apply FrameHeightFacts.initialized_iff in H.
  destruct H as [rs1 [rs2 [E [Hne H]]]]. subst rs. split.
  - destruct rs1; [contradiction | discriminate].
  - pose proof (registered_le_reporters a rs1).
    pose proof (distinctReported_app rs1 rs2). lia.
Qed.

Lemma initialized_needs_reporters_witness :
  let a := {| adaptiveHeight := true; slidesToShow := 2; numSlides := 5 |} in
  let rs := [(0, Some 100); (1, Some 150); (1, None)] in
  initializedAdaptiveHeight (reports a rs init) = true
  /\ rs <> [] /\ threshold a <= distinctReported rs.
Proof.
  intros a rs.
  assert (H : initializedAdaptiveHeight (reports a rs init) = true)
    by reflexivity.
  split; [exact H|].
  exact (proj2 (initialized_needs_reporters a rs) H).
Defined.

Lemma maxHeight_perm l l' :
  Permutation l l' -> maxHeight l = maxHeight l'.
Proof.
  intros P. unfold maxHeight.
  assert (G : forall m m', Permutation m m' ->
                forall acc, fold_left Z.max m acc = fold_left Z.max m' acc).
  { clear. intros m m' P. induction P; intros acc; simpl.
    - reflexivity.
    - apply IHP.
    - f_equal. lia.
    - now rewrite IHP1. }
  apply G. now apply Permutation_map.
Qed.

Lemma replaceEntry_comm i j v w sh :
  i <> j ->
  replaceEntry j w (replaceEntry i v sh) = replaceEntry i v (replaceEntry j w sh).
Proof.
  intros Hne.
  destruct (sameIndex i sh) eqn:Ei; destruct (sameIndex j sh) eqn:Ej.
  - unfold sameIndex in *. apply Z.eqb_eq in Ei, Ej. congruence.
  - rewrite (replaceEntry_hit _ _ _ Ei), (replaceEntry_miss _ _ _ Ej),
      (replaceEntry_hit _ _ _ Ei).
    apply replaceEntry_miss.
    apply (sameIndex_other j i _ Hne (sameIndex_new i v)).
  - rewrite (replaceEntry_miss _ _ _ Ei), (replaceEntry_hit _ _ _ Ej).
    symmetry. apply replaceEntry_miss.
    apply (sameIndex_other i j _ (not_eq_sym Hne) (sameIndex_new j w)).
  - rewrite (replaceEntry_miss _ _ _ Ei), (replaceEntry_miss _ _ _ Ej).
    symmetry. apply (replaceEntry_miss _ _ _ Ei).
Qed.

Lemma existsb_replace_other i j w l :
  existsb (sameIndex i) (map (replaceEntry j w) l) = existsb (sameIndex i) l
  \/ i = j.
Proof.
  destruct (Z.eq_dec i j) as [E|Hne]; [now right|left].
  induction l as [|sh l IH]; simpl; [reflexivity|]. rewrite IH. f_equal.
  destruct (sameIndex j sh) eqn:Ej.
  - rewrite (replaceEntry_hit _ _ _ Ej).
    rewrite (sameIndex_other i j sh (not_eq_sym Hne) Ej).
    apply (sameIndex_other i j _ (not_eq_sym Hne) (sameIndex_new j w)).
  - now rewrite (replaceEntry_miss _ _ _ Ej).
Qed.

(** X5.  Numbers reported by two different slides can arrive in either
    order: the collections hold the same entries (up to their order), the
    hook is initialised in both cases or in neither, and the frame height
    is the same. *)
Theorem numeric_reports_commute (a : Args) (i j v w : Z) (s : State) :
  i <> j ->
  let sA := handleVisibleSlideHeightChange a j (Some w)
              (handleVisibleSlideHeightChange a i (Some v) s) in
  let sB := handleVisibleSlideHeightChange a i (Some v)
              (handleVisibleSlideHeightChange a j (Some w) s) in
  Permutation (visibleHeights sA) (visibleHeights sB)
  /\ initializedAdaptiveHeight sA = initializedAdaptiveHeight sB
  /\ frameHeight a sA = frameHeight a sB.
Proof.
  intros Hne sA sB.
  set (l := visibleHeights s).
  assert (Fi : forall m, existsb (sameIndex i) (map (replaceEntry j w) m)
                         = existsb (sameIndex i) m)
    by (intros m; destruct (existsb_replace_other i j w m); [assumption|contradiction]).
  assert (Fj : forall m, existsb (sameIndex j) (map (replaceEntry i v) m)
                         = existsb (sameIndex j) m)
    by (intros m; destruct (existsb_replace_other j i v m);
        [assumption|symmetry in H; contradiction]).
  assert (Ni : sameIndex i {| slideIndex := j; height := w |} = false)
    by (apply (sameIndex_other i j _ (not_eq_sym Hne) (sameIndex_new j w))).
  assert (Nj : sameIndex j {| slideIndex := i; height := v |} = false)
    by (apply (sameIndex_other j i _ Hne (sameIndex_new i v))).
  assert (P : Permutation (visibleHeights sA) (visibleHeights sB)).
  { unfold sA, sB. rewrite !visibleHeights_step. fold l.
    destruct (existsb (sameIndex i) l) eqn:Ei;
      destruct (existsb (sameIndex j) l) eqn:Ej.
    - rewrite Fi, Fj, Ei, Ej, !map_map.
      erewrite map_ext; [apply Permutation_refl|].
      intros sh. apply replaceEntry_comm. exact Hne.
    - rewrite Fj, Ej, existsb_app, Ei. simpl.
      rewrite map_app. simpl. rewrite (replaceEntry_miss _ _ _ Ni).
      apply Permutation_refl.
    - rewrite Fi, Ei, existsb_app, Ej. simpl.
      rewrite map_app. simpl. rewrite (replaceEntry_miss _ _ _ Nj).
      apply Permutation_refl.
    - rewrite !existsb_app, Ei, Ej. simpl. rewrite Ni, Nj. simpl.
      rewrite <- !app_assoc. apply Permutation_app_head. simpl.
      apply perm_swap. }
  assert (L : forall k h t, (List.length (visibleHeights t)
                <= List.length (visibleHeights
                     (handleVisibleSlideHeightChange a k (Some h) t)))%nat).
  { intros k h t. rewrite visibleHeights_step.
    destruct (existsb (sameIndex k) (visibleHeights t)).
    - rewrite length_map. lia.
    - rewrite length_app. simpl. lia. }
  assert (B : initializedAdaptiveHeight sA = initializedAdaptiveHeight sB).
  { set (s1 := handleVisibleSlideHeightChange a i (Some v) s) in *.
    set (s2 := handleVisibleSlideHeightChange a j (Some w) s) in *.
    pose proof (FrameHeightFacts.initialized_step a j (Some w) s1) as EA.
    pose proof (FrameHeightFacts.initialized_step a i (Some v) s) as E1.
    pose proof (FrameHeightFacts.initialized_step a i (Some v) s2) as EB.
    pose proof (FrameHeightFacts.initialized_step a j (Some w) s) as E2.
    fold s1 in E1. fold s2 in E2. fold sA in EA. fold sB in EB.
    pose proof (L j w s1) as LA. pose proof (L i v s2) as LB.
    fold sA in LA. fold sB in LB.
    pose proof (Permutation_length P) as PL.
    rewrite EA, EB, E1, E2, PL.
    destruct (Z.leb_spec (threshold a)
                (Z.of_nat (List.length (visibleHeights sB)))); [reflexivity|].
    destruct (Z.leb_spec (threshold a)
                (Z.of_nat (List.length (visibleHeights s1)))); [lia|].
    destruct (Z.leb_spec (threshold a)
                (Z.of_nat (List.length (visibleHeights s2)))); [lia|].
    reflexivity. }
  split; [exact P|]. split; [exact B|].
  unfold frameHeight. rewrite B, (maxHeight_perm _ _ P). reflexivity.
Qed.

Lemma numeric_reports_commute_witness :
  let a := {| adaptiveHeight := true; slidesToShow := 2; numSlides := 5 |} in
  0 <> 1
  /\ frameHeight a
       (handleVisibleSlideHeightChange a 1 (Some 150)
          (handleVisibleSlideHeightChange a 0 (Some 100) init))
     = frameHeight a
         (handleVisibleSlideHeightChange a 0 (Some 100)
            (handleVisibleSlideHeightChange a 1 (Some 150) init)).
Proof.
  intros a.
  assert (H : 0 <> 1) by discriminate.
  split; [exact H|].
  exact (proj2 (proj2 (numeric_reports_commute a 0 1 100 150 init H))).
Defined.

End HeightMapFacts.

(** * Timers *)

Module TimerFacts.
Import Carousel Events.

Create HintDb stable.

Section Stable.

Context {U : Utils} (p : Props) (P : State -> Prop) (HP : stable P).

Lemma stable_same s s' :
  timeouts s' = timeouts s -> nextHandle s' = nextHandle s ->
  timer s' = timer s -> P s -> P s'.
Proof. destruct HP as [H _]. apply H. Qed.

Lemma stable_setTimeout s t d :
  isAutoplayTask t = false -> P s -> P (snd (setTimeout t d s)).
Proof. destruct HP as [_ [H _]]. apply H. Qed.

Lemma stable_clearTimeout s h : P s -> P (clearTimeout h s).
Proof. destruct HP as [_ [_ H]]. apply H. Qed.

Lemma stable_setCurrentSlide v s : P s -> P (setCurrentSlide v s).
Proof. now apply stable_same. Qed.

Lemma stable_setAnimation v s : P s -> P (setAnimation v s).
Proof. now apply stable_same. Qed.

Lemma stable_setPause v s : P s -> P (setPause v s).
Proof. now apply stable_same. Qed.

Lemma stable_setDragging v s : P s -> P (setDragging v s).
Proof. now apply stable_same. Qed.

Lemma stable_setMove v s : P s -> P (setMove v s).
Proof. now apply stable_same. Qed.

Lemma stable_setPrevMove v s : P s -> P (setPrevMove v s).
Proof. now apply stable_same. Qed.

Lemma stable_setCarouselWidth v s : P s -> P (setCarouselWidth v s).
Proof. now apply stable_same. Qed.

Lemma stable_setIsMounted v s : P s -> P (setIsMounted v s).
Proof. now apply stable_same. Qed.

Lemma stable_call c s : P s -> P (call c s).
Proof. now apply stable_same. Qed.

Lemma stable_clearTimer s : P s -> P (clearTimer s).
Proof.
  intros H. unfold clearTimer. destruct (timer s); [|exact H].
  now apply stable_clearTimeout.
Qed.

Hint Resolve stable_setTimeout stable_clearTimeout stable_setCurrentSlide
  stable_setAnimation stable_setPause stable_setDragging stable_setMove
  stable_setPrevMove stable_setCarouselWidth stable_setIsMounted stable_call
  stable_clearTimer : stable.

Ltac branches :=
  repeat match goal with
         | |- context [if ?c then _ else _] => destruct c
         | |- context [match ?c with Some _ => _ | None => _ end] => destruct c
         end.

Lemma stable_moveSlide cur to s : P s -> P (moveSlide p cur to s).
Proof. intros H. unfold moveSlide. branches; auto 10 with stable. Qed.

Lemma stable_nextSlide cur s : P s -> P (nextSlide p cur s).
Proof. intros H. unfold nextSlide. branches; now apply stable_moveSlide. Qed.

Lemma stable_prevSlide cur s : P s -> P (prevSlide p cur s).
Proof. intros H. unfold prevSlide. branches; now apply stable_moveSlide. Qed.

Hint Resolve stable_moveSlide stable_nextSlide stable_prevSlide : stable.

Lemma stable_handleDragEnd r s : P s -> P (handleDragEnd p r s).
Proof. intros H. unfold handleDragEnd. branches; auto 10 with stable. Qed.

Hint Resolve stable_handleDragEnd : stable.

Lemma stable_handlePointerMove r m s : P s -> P (handlePointerMove p r m s).
Proof. intros H. unfold handlePointerMove. branches; auto 10 with stable. Qed.

Hint Resolve stable_handlePointerMove : stable.

Lemma stable_gestures r s :
  P s ->
  P (onTouchStart p r s) /\ P (onMouseDown p r s) /\ P (onMouseUp p r s)
  /\ (forall x, P (onTouchMove p r x s))
  /\ (forall x l, P (onMouseMove p r x l s))
  /\ P (onMouseEnter p r s) /\ P (onMouseLeave p r s).
Proof.
  intros H.
  unfold onTouchStart, onMouseDown, onMouseUp, onTouchMove, onMouseMove,
    onMouseEnter, onMouseLeave.
  repeat split; intros; branches; auto 10 with stable.
Qed.

Lemma stable_runTask t s : P s -> P (runTask p t s).
Proof. intros H. destruct t; simpl; branches; auto 10 with stable. Qed.

Lemma stable_fire h s : P s -> P (fire p h s).
Proof.
  intros H. unfold fire. destruct (find _ _); [|exact H].
  apply stable_runTask. now apply stable_clearTimeout.
Qed.

Lemma stable_wrapAroundEffect r s : P s -> P (wrapAroundEffect p r s).
Proof. intros H. unfold wrapAroundEffect. branches; auto 10 with stable. Qed.

Lemma stable_slideIndexEffect r s : P s -> P (slideIndexEffect p r s).
Proof. intros H. unfold slideIndexEffect. branches; auto 10 with stable. Qed.

Lemma stable_autoplayCorrectionEffect r s :
  P s -> P (autoplayCorrectionEffect p r s).
Proof.
  intros H. unfold autoplayCorrectionEffect. branches; auto 10 with stable.
Qed.

End Stable.

Lemma handlesDistinct_setTimeout s t d :
  handlesDistinct s -> handlesDistinct (snd (setTimeout t d s)).
Proof.
  intros [Hf Hn]. unfold handlesDistinct, freshHandles in *. simpl. split.
  - apply Forall_app. split.
    + eapply Forall_impl; [|exact Hf]. simpl. intros. lia.
    + constructor; [simpl; lia | constructor].
  - rewrite map_app. simpl. apply NoDup_app; auto.
    + repeat constructor. simpl. tauto.
    + intros h Hin [E|[]]. subst h. apply in_map_iff in Hin.
      destruct Hin as [x [E Hx]]. rewrite Forall_forall in Hf.
      specialize (Hf x Hx). simpl in Hf. lia.
Qed.

Lemma NoDup_map_filter {A B} (f : A -> B) (g : A -> bool) l :
  NoDup (map f l) -> NoDup (map f (filter g l)).
Proof.
  induction l as [|x l IH]; simpl; intros H; [constructor|].
  inversion H as [|? ? Hn Hd]; subst. destruct (g x); simpl; auto.
  constructor; auto. intro Hin. apply Hn. apply in_map_iff in Hin.
  destruct Hin as [y [E Hy]]. apply filter_In in Hy. apply in_map_iff.
  exists y. tauto.
Qed.

Lemma handlesDistinct_clearTimeout s h :
  handlesDistinct s -> handlesDistinct (clearTimeout h s).
Proof.
  intros [Hf Hn]. unfold handlesDistinct, freshHandles in *. simpl. split.
  - apply Forall_forall. intros x Hx. apply filter_In in Hx.
    rewrite Forall_forall in Hf. now apply Hf.
  - now apply NoDup_map_filter.
Qed.

Lemma handlesDistinct_same s s' :
  timeouts s' = timeouts s -> nextHandle s' = nextHandle s ->
  handlesDistinct s -> handlesDistinct s'.
Proof.
  intros Et En. unfold handlesDistinct, freshHandles. now rewrite Et, En.
Qed.

Lemma autoplayTimeouts_nil s :
  noAutoplayPending s <->
  forall t, In t (timeouts s) -> isAutoplayTask (task t) = false.
Proof.
  unfold noAutoplayPending, autoplayTimeouts. split.
  - intros E t Hin. destruct (isAutoplayTask (task t)) eqn:F; [|reflexivity].
    assert (Hf : In t (filter (fun t => isAutoplayTask (task t)) (timeouts s)))
      by (apply filter_In; auto).
    rewrite E in Hf. destruct Hf.
  - intros H. induction (timeouts s) as [|x l IH]; simpl; [reflexivity|].
    rewrite (H x (or_introl eq_refl)). apply IH. intros t Ht. apply H. now right.
Qed.

Lemma stable_timersConsistent : stable timersConsistent.
Proof.
  unfold stable, timersConsistent. split; [|split].
  - intros s s' Et En Em [Hd Ht]. split.
    + now apply (handlesDistinct_same s).
    + unfold autoplayTimerTracked in *. now rewrite Et, Em.
  - intros s t d Hna [Hd Ht]. split.
    + now apply handlesDistinct_setTimeout.
    + unfold autoplayTimerTracked in *. simpl. intros x Hx Ha.
      apply in_app_or in Hx. destruct Hx as [Hx|[E|[]]]; [auto|].
      subst x. simpl in Ha. congruence.
  - intros s h [Hd Ht]. split.
    + now apply handlesDistinct_clearTimeout.
    + unfold autoplayTimerTracked in *. simpl. intros x Hx Ha.
      apply filter_In in Hx. apply Ht; tauto.
Qed.

Lemma stable_noAutoplay :
  stable (fun s => handlesDistinct s /\ noAutoplayPending s).
Proof.
  unfold stable. split; [|split].
  - intros s s' Et En Em [Hd Hn]. split.
    + now apply (handlesDistinct_same s).
    + unfold noAutoplayPending, autoplayTimeouts in *. now rewrite Et.
  - intros s t d Hna [Hd Hn]. split.
    + now apply handlesDistinct_setTimeout.
    + apply autoplayTimeouts_nil. rewrite autoplayTimeouts_nil in Hn. simpl.
      intros x Hx. apply in_app_or in Hx.
      destruct Hx as [Hx|[E|[]]]; [auto | subst x; exact Hna].
  - intros s h [Hd Hn]. split.
    + now apply handlesDistinct_clearTimeout.
    + apply autoplayTimeouts_nil. rewrite autoplayTimeouts_nil in Hn. simpl.
      intros x Hx. apply filter_In in Hx. apply Hn. tauto.
Qed.

Lemma noAutoplay_consistent s :
  handlesDistinct s /\ noAutoplayPending s -> timersConsistent s.
Proof.
  intros [Hd Hn]. split; [exact Hd|]. intros t Hin Ha.
  rewrite autoplayTimeouts_nil in Hn. rewrite (Hn t Hin) in Ha. discriminate.
Qed.

(** The cleanup of the autoplay effect leaves no autoplay timeout. *)
Lemma clearTimer_noAutoplay s :
  timersConsistent s ->
  handlesDistinct (clearTimer s) /\ noAutoplayPending (clearTimer s).
Proof.
  intros [Hd Ht]. split.
  - unfold clearTimer. destruct (timer s); [|exact Hd].
    now apply handlesDistinct_clearTimeout.
  - apply autoplayTimeouts_nil.
    apply CarouselFacts.clearTimer_no_autoplay. exact Ht.
Qed.

Lemma autoplayTimeouts_app_one l t :
  filter (fun t => isAutoplayTask (task t)) l = [] ->
  isAutoplayTask (task t) = true ->
  filter (fun t => isAutoplayTask (task t)) (l ++ [t]) = [t].
Proof.
  intros Hl Ht. rewrite filter_app, Hl. simpl. now rewrite Ht.
Qed.

(** From a state without autoplay timeout, the autoplay effect schedules at
    most one, and [timer.current] holds its handle. *)
Lemma autoplayEffect_consistent (p : Props) r s :
  handlesDistinct s -> noAutoplayPending s ->
  timersConsistent (autoplayEffect p r s)
  /\ autoplayTimeouts (autoplayEffect p r s) =
     (if props_autoplay p && negb (pause r)
      then [ {| handle := nextHandle s; delay := props_autoplayInterval p;
                task := AutoplayTask (currentSlide r) |} ]
      else [])
  /\ (props_autoplay p && negb (pause r) = true ->
      timer (autoplayEffect p r s) = Some (nextHandle s)).
Proof.
  intros Hd Hn. unfold autoplayEffect.
  destruct (props_autoplay p) eqn:Ea; destruct (pause r) eqn:Ep; simpl.
  - destruct (clearTimer_noAutoplay s (noAutoplay_consistent s (conj Hd Hn)))
      as [Hd' Hn'].
    split; [apply noAutoplay_consistent; auto|]. split; [exact Hn'|discriminate].
  - split; [|split; [|reflexivity]].
    + split.
      * apply (handlesDistinct_same (snd (setTimeout (AutoplayTask (currentSlide r))
                                            (props_autoplayInterval p) s)));
          [reflexivity | reflexivity | now apply handlesDistinct_setTimeout].
      * intros t Hin Ha. simpl in Hin. apply in_app_or in Hin.
        destruct Hin as [Hin|[E|[]]].
        -- rewrite autoplayTimeouts_nil in Hn. rewrite (Hn t Hin) in Ha.
           discriminate.
        -- subst t. reflexivity.
    + unfold autoplayTimeouts. simpl. now apply autoplayTimeouts_app_one.
  - split; [apply noAutoplay_consistent; auto|]. split; [exact Hn|discriminate].
  - split; [apply noAutoplay_consistent; auto|]. split; [exact Hn|discriminate].
Qed.

Section Reachable.

Context {U : Utils} (p : Props).

Lemma commit_consistent prev r :
  timersConsistent r -> timersConsistent (commit p prev r).
Proof.
  intros H. unfold commit.
  set (indexChanged := negb (currentSlide prev =? currentSlide r)).
  set (animationChanged := negb (Bool.eqb (animation prev) (animation r))).
  set (pauseChanged := negb (Bool.eqb (pause prev) (pause r))).
  destruct (indexChanged || pauseChanged) eqn:E1.
  - assert (H1 : handlesDistinct (autoplayCleanup r)
                 /\ noAutoplayPending (autoplayCleanup r))
      by (apply clearTimer_noAutoplay; exact H).
    set (s1 := autoplayCleanup r) in *.
    assert (H2 : handlesDistinct
                   (if animationChanged || indexChanged
                    then autoplayCorrectionEffect p r s1 else s1)
                 /\ noAutoplayPending
                      (if animationChanged || indexChanged
                       then autoplayCorrectionEffect p r s1 else s1)).
    { destruct (animationChanged || indexChanged); [|exact H1].
      apply (stable_autoplayCorrectionEffect p _ stable_noAutoplay). exact H1. }
    set (s2 := if animationChanged || indexChanged
               then autoplayCorrectionEffect p r s1 else s1) in *.
    destruct H2 as [H2d H2n].
    destruct (autoplayEffect_consistent p r s2 H2d H2n) as [H3 _].
    destruct indexChanged; [|exact H3].
    apply (stable_wrapAroundEffect p _ stable_timersConsistent). exact H3.
  - apply orb_false_iff in E1. destruct E1 as [Ei Ep]. rewrite Ei.
    rewrite orb_false_r.
    destruct animationChanged; [|exact H].
    apply (stable_autoplayCorrectionEffect p _ stable_timersConsistent). exact H.
Qed.

Lemma initialState_noAutoplay :
  handlesDistinct (initialState p) /\ noAutoplayPending (initialState p).
Proof.
  split; [split; constructor | reflexivity].
Qed.

Lemma mount_consistent w : timersConsistent (mount p w).
Proof.
  unfold mount, mountEffects.
  apply (stable_setCarouselWidth _ stable_timersConsistent).
  apply (stable_wrapAroundEffect p _ stable_timersConsistent).
  apply autoplayEffect_consistent;
    apply (stable_autoplayCorrectionEffect p _ stable_noAutoplay);
    apply (stable_slideIndexEffect p _ stable_noAutoplay);
    apply (stable_setIsMounted _ stable_noAutoplay);
    apply initialState_noAutoplay.
Qed.

Lemma step_consistent e s :
  timersConsistent s -> timersConsistent (step p e s).
Proof.
  intros H.
  destruct e as [prev|h|cur to|cur|cur|r|r x|r|r|r x l|r|r|r]; simpl.
  - now apply commit_consistent.
  - now apply (stable_fire p _ stable_timersConsistent).
  - now apply (stable_moveSlide p _ stable_timersConsistent).
  - now apply (stable_nextSlide p _ stable_timersConsistent).
  - now apply (stable_prevSlide p _ stable_timersConsistent).
  - now apply (stable_gestures p _ stable_timersConsistent r s H).
  - now apply (stable_gestures p _ stable_timersConsistent r s H).
  - now apply (stable_handleDragEnd p _ stable_timersConsistent).
  - now apply (stable_gestures p _ stable_timersConsistent r s H).
  - now apply (stable_gestures p _ stable_timersConsistent r s H).
  - now apply (stable_gestures p _ stable_timersConsistent r s H).
  - now apply (stable_gestures p _ stable_timersConsistent r s H).
  - now apply (stable_gestures p _ stable_timersConsistent r s H).
Qed.

Lemma run_consistent es : forall s,
  timersConsistent s -> timersConsistent (run p es s).
Proof.
  induction es as [|e es IH]; simpl; intros s H; [exact H|].
  apply IH. now apply step_consistent.
Qed.

Lemma NoDup_map_inj {A B} (f : A -> B) l a b :
  NoDup (map f l) -> In a l -> In b l -> f a = f b -> a = b.
Proof.
  induction l as [|x l IH]; simpl; intros Hn Ha Hb E; [destruct Ha|].
  inversion Hn as [|? ? Hx Hl]; subst.
  destruct Ha as [Ha|Ha], Hb as [Hb|Hb]; subst.
  - reflexivity.
  - exfalso. apply Hx. rewrite E. now apply in_map.
  - exfalso. apply Hx. rewrite <- E. now apply in_map.
  - now apply IH.
Qed.

(** X6.  In every state that a mounted carousel reaches, through renders,
    timers, gestures, hovering and the imperative handle, whatever the
    closures in use: the pending timeouts have distinct handles, each one
    already returned by [setTimeout], and at most one autoplay timeout is
    pending, the one whose handle is in [timer.current]. *)
Theorem timers_consistent_always (w : Z) (es : list Event) :
  let s := run p es (mount p w) in
  NoDup (map handle (timeouts s))
  /\ freshHandles s
  /\ autoplayTimerTracked s
  /\ (forall t1 t2, In t1 (autoplayTimeouts s) -> In t2 (autoplayTimeouts s) ->
                    t1 = t2).
Proof.
  intros s.
  destruct (run_consistent es (mount p w) (mount_consistent w))
    as [[Hf Hn] Ht].
  fold s in Hf, Hn, Ht. repeat split; auto.
  intros t1 t2 H1 H2. unfold autoplayTimeouts in H1, H2.
  apply filter_In in H1, H2. destruct H1 as [I1 A1], H2 as [I2 A2].
  apply (NoDup_map_inj handle (timeouts s)); auto.
  pose proof (Ht t1 I1 A1) as E1. pose proof (Ht t2 I2 A2) as E2.
  congruence.
Qed.

End Reachable.

End TimerFacts.

(** * Further properties of the controller *)

Module ControllerFacts.
Import Carousel Events.

Section Controller.

Context {U : Utils} (p : Props).

Lemma clearTimer_nextHandle s : nextHandle (clearTimer s) = nextHandle s.
Proof. unfold clearTimer. destruct (timer s); reflexivity. Qed.

Lemma autoplayCorrectionEffect_nextHandle r s :
  nextHandle (autoplayCorrectionEffect p r s) = nextHandle s.
Proof.
  unfold autoplayCorrectionEffect.
  repeat match goal with |- context [if ?c then _ else _] => destruct c end;
    try reflexivity; rewrite clearTimer_nextHandle; reflexivity.
Qed.

(** X7.  With autoplay on, every render in which the index or the pause
    flag changed reschedules the autoplay timer: after its effects exactly
    one autoplay timeout is pending, with the configured interval and the
    index of that render, and none is pending when the render is paused. *)
Theorem commit_reschedules_autoplay (prev r : State) :
  timersConsistent r ->
  props_autoplay p = true ->
  currentSlide prev <> currentSlide r \/ pause prev <> pause r ->
  autoplayTimeouts (commit p prev r) =
  if pause r then []
  else [ {| handle := nextHandle r; delay := props_autoplayInterval p;
            task := AutoplayTask (currentSlide r) |} ].
Proof.
  intros H Ha Hc. unfold commit.
  set (indexChanged := negb (currentSlide prev =? currentSlide r)).
  set (animationChanged := negb (Bool.eqb (animation prev) (animation r))).
  set (pauseChanged := negb (Bool.eqb (pause prev) (pause r))).
  assert (E1 : indexChanged || pauseChanged = true).
  { unfold indexChanged, pauseChanged. destruct Hc as [Hc|Hc].
    - apply Z.eqb_neq in Hc. rewrite Hc. reflexivity.
    - destruct (pause prev), (pause r); try contradiction;
        simpl; apply orb_true_r. }
  rewrite E1.
  pose proof (TimerFacts.clearTimer_noAutoplay r H) as H1.
  set (s1 := autoplayCleanup r) in *.
  set (s2 := if animationChanged || indexChanged
             then autoplayCorrectionEffect p r s1 else s1).
  assert (H2 : handlesDistinct s2 /\ noAutoplayPending s2).
  { unfold s2. destruct (animationChanged || indexChanged); [|exact H1].
    apply (TimerFacts.stable_autoplayCorrectionEffect p _
             TimerFacts.stable_noAutoplay). exact H1. }
  assert (N2 : nextHandle s2 = nextHandle r).
  { unfold s2. destruct (animationChanged || indexChanged).
    - rewrite autoplayCorrectionEffect_nextHandle. apply clearTimer_nextHandle.
    - apply clearTimer_nextHandle. }
  destruct H2 as [H2d H2n].
  destruct (TimerFacts.autoplayEffect_consistent p r s2 H2d H2n) as [_ [E _]].
  assert (W : forall x, wrapAroundEffect p r x = x).
  { intros x. unfold wrapAroundEffect. rewrite Ha.
    rewrite andb_false_r. reflexivity. }
  assert (G : autoplayTimeouts
                (if indexChanged then wrapAroundEffect p r (autoplayEffect p r s2)
                 else autoplayEffect p r s2)
              = autoplayTimeouts (autoplayEffect p r s2))
    by (destruct indexChanged; [rewrite W|]; reflexivity).
  rewrite G, E, Ha, N2. destruct (pause r); reflexivity.
Qed.

(** An unmounted component ignores the timeouts that check [isMounted]. *)
Lemma fire_unmounted h x :
  isMounted x = false -> noAutoplayPending x ->
  fire p h x = clearTimeout h x.
Proof.
  intros Hm Hn. unfold fire.
  destruct (find (fun t => Pos.eqb (handle t) h) (timeouts x)) as [t|] eqn:F.
  - apply find_some in F. destruct F as [Hin _].
    rewrite TimerFacts.autoplayTimeouts_nil in Hn. specialize (Hn t Hin).
    destruct (task t); simpl in *; try discriminate; rewrite Hm; reflexivity.
  - unfold clearTimeout.
    assert (E : filter (fun t => negb (Pos.eqb (handle t) h)) (timeouts x)
                = timeouts x).
    { pose proof (find_none _ _ F) as Hnone. clear F.
      induction (timeouts x) as [|y l IH]; simpl; [reflexivity|].
      rewrite (Hnone y (or_introl eq_refl)). simpl. f_equal.
      apply IH. intros z Hz. apply Hnone. now right. }
    rewrite E. destruct x; reflexivity.
Qed.

(** X8.  After the component is unmounted, no timeout that still fires
    changes the React state or calls a callback: the timers that check
    [isMounted] do nothing, and the autoplay timer has been cancelled. *)
Theorem unmount_silences_timers (s : State) (hs : list positive) :
  autoplayTimerTracked s ->
  let s' := fires p hs (unmount s) in
  currentSlide s' = currentSlide s /\ animation s' = animation s
  /\ pause s' = pause s /\ dragging s' = dragging s /\ move s' = move s
  /\ calls s' = calls s /\ isMounted s' = false
  /\ incl (timeouts s') (timeouts s).
Proof.
  intros Ht s'.
  assert (G : forall hs x,
             isMounted x = false -> noAutoplayPending x ->
             let y := fires p hs x in
             currentSlide y = currentSlide x /\ animation y = animation x
             /\ pause y = pause x /\ dragging y = dragging x /\ move y = move x
             /\ calls y = calls x /\ isMounted y = false
             /\ incl (timeouts y) (timeouts x)).
  { clear. induction hs as [|h hs IH]; intros x Hm Hn; simpl.
    - repeat split; auto. apply incl_refl.
    - rewrite (fire_unmounted h x Hm Hn).
      assert (Hm' : isMounted (clearTimeout h x) = false) by exact Hm.
      assert (Hn' : noAutoplayPending (clearTimeout h x)).
      { apply TimerFacts.autoplayTimeouts_nil.
        rewrite TimerFacts.autoplayTimeouts_nil in Hn.
        simpl. intros t Hin. apply filter_In in Hin. apply Hn. tauto. }
      destruct (IH (clearTimeout h x) Hm' Hn')
        as [A [B [C [D [E [F [G H]]]]]]].
      repeat split; auto.
      eapply incl_tran; [exact H|]. simpl. apply incl_filter. }
  assert (Hm : isMounted (unmount s) = false).
  { unfold unmount, autoplayCleanup, clearTimer. simpl.
    destruct (timer s); reflexivity. }
  assert (Hn : noAutoplayPending (unmount s)).
  { apply TimerFacts.autoplayTimeouts_nil. unfold unmount, autoplayCleanup.
    apply CarouselFacts.clearTimer_no_autoplay. exact Ht. }
  destruct (G hs (unmount s) Hm Hn) as [A [B [C [D [E [F [G' H]]]]]]].
  fold s' in A, B, C, D, E, F, G', H.
  assert (K : currentSlide (unmount s) = currentSlide s
              /\ animation (unmount s) = animation s
              /\ pause (unmount s) = pause s
              /\ dragging (unmount s) = dragging s
              /\ move (unmount s) = move s
              /\ calls (unmount s) = calls s
              /\ incl (timeouts (unmount s)) (timeouts s)).
  { unfold unmount, autoplayCleanup, clearTimer. simpl.
    destruct (timer s); simpl; repeat split; auto;
      try apply incl_refl; apply incl_filter. }
  destruct K as [K1 [K2 [K3 [K4 [K5 [K6 K7]]]]]].
  rewrite A, B, C, D, E, F. repeat split; auto.
  eapply incl_tran; [exact H | exact K7].
Qed.

(** X9.  [moveSlide(t)] with a number calls beforeSlide at once and, when
    its timeout fires on the mounted component, afterSlide with the same
    normalised index; the index is [t] from the call on, and the animation
    flag is raised and lowered again unless animation is disabled.  For a
    target within one count of the slides (-count <= t <= count) the index
    handed to the callbacks lies in [0, count). *)
Theorem moveSlide_cycle (s : State) (cur t : Z) :
  freshHandles s -> isMounted s = true ->
  let n := getNextIndex (count p) cur (Some t) in
  let slide := fst (getIndexes cur (cur - slidesToScroll p) (count p)) in
  let s1 := moveSlide p cur (Some t) s in
  let s2 := fire p (nextHandle s) s1 in
  (calls s1 = calls s ++ [beforeSlide slide n]
   /\ currentSlide s1 = t
   /\ animation s1 = if props_disableAnimation p then animation s else true)
  /\ (calls s2 = calls s ++ [beforeSlide slide n; afterSlide n]
      /\ currentSlide s2 = t
      /\ animation s2 = (if props_disableAnimation p then animation s else false)
      /\ timeouts s2 = timeouts s)
  /\ (0 < count p -> - count p <= t <= count p -> 0 <= n < count p).
Proof.
  intros Hf Hm n slide s1 s2.
  assert (A1 : calls s1 = calls s ++ [beforeSlide slide n]
               /\ currentSlide s1 = t
               /\ animation s1 = (if props_disableAnimation p
                                  then animation s else true)
               /\ isMounted s1 = true).
  { unfold s1, moveSlide. fold slide. fold n.
    destruct (props_disableAnimation p); simpl; auto. }
  destruct A1 as [C1 [I1 [N1 M1]]].
  assert (T1 : timeouts s1 = timeouts s ++
                 [ {| handle := nextHandle s;
                      delay := if props_disableAnimation p then 40
                               else speedOrDefault p;
                      task := SettleTask (Some t) n |} ])
    by apply CarouselFacts.moveSlide_timeouts.
  split; [auto|]. split.
  - unfold s2. clearbody s1 n slide.
    rewrite (CarouselFacts.fire_pending p (nextHandle s) (timeouts s)
               {| handle := nextHandle s;
                  delay := if props_disableAnimation p then 40
                           else speedOrDefault p;
                  task := SettleTask (Some t) n |} [] s1);
      [ | exact Hf | reflexivity | constructor | exact T1 ].
    cbn [task runTask isMounted setTimeouts]. rewrite M1. cbn [negb].
    rewrite app_nil_r.
    destruct (props_disableAnimation p); simpl;
      rewrite C1, <- app_assoc; simpl; rewrite ?I1, ?N1; auto.
  - intros Hc Ht. unfold n, getNextIndex.
    destruct (Z.ltb_spec t 0); [lia|].
    destruct (Z.eqb_spec t (count p)); lia.
Qed.

Lemma find_handle_unique (l : list Timeout) t :
  NoDup (map handle l) -> In t l ->
  find (fun x => Pos.eqb (handle x) (handle t)) l = Some t.
Proof.
  induction l as [|y l IH]; simpl; intros Hn Hin; [destruct Hin|].
  inversion Hn as [|? ? Hy Hl]; subst.
  destruct (Pos.eqb_spec (handle y) (handle t)) as [E|Hne].
  - destruct Hin as [Hin|Hin]; [now subst|].
    exfalso. apply Hy. rewrite E. now apply in_map.
  - destruct Hin as [Hin|Hin]; [subst; contradiction|]. now apply IH.
Qed.

(** X10.  Without wrap-around autoplay stops at the end: when the autoplay
    timeout fires at or beyond [count - slidesToShow] (at or below 0 with
    autoplayReverse) it only disappears from the pending timeouts; the
    React state is unchanged, so the render that follows runs no effect and
    no autoplay timeout is pending. *)
Theorem autoplay_stops_at_end (s : State) (t : Timeout) (cur : Z) :
  timersConsistent s ->
  In t (timeouts s) -> task t = AutoplayTask cur ->
  props_wrapAround p = false ->
  (props_autoplayReverse p = false /\ count p - props_slidesToShow p <= cur)
  \/ (props_autoplayReverse p = true /\ cur <= 0) ->
  let s' := fire p (handle t) s in
  s' = clearTimeout (handle t) s
  /\ commit p s s' = s'
  /\ autoplayTimeouts s' = [].
Proof.
  intros [[Hf Hn] Ht] Hin Etask Hw Hb s'.
  assert (E : s' = clearTimeout (handle t) s).
  { unfold s', fire. rewrite (find_handle_unique _ _ Hn Hin), Etask.
    simpl. rewrite Hw. simpl.
    destruct Hb as [[Hr Hb]|[Hr Hb]]; rewrite Hr.
    - destruct (Z.ltb_spec cur (count p - props_slidesToShow p)); [lia|].
      reflexivity.
    - destruct (Z.ltb_spec 0 cur); [lia|]. reflexivity. }
  split; [exact E|]. split.
  - rewrite E. unfold commit. simpl.
    rewrite Z.eqb_refl, !Bool.eqb_reflx. reflexivity.
  - rewrite E. apply TimerFacts.autoplayTimeouts_nil. simpl.
    intros x Hx. apply filter_In in Hx. destruct Hx as [Hx Hh].
    destruct (isAutoplayTask (task x)) eqn:F; [|reflexivity].
    exfalso. pose proof (Ht x Hx F) as E1.
    assert (Ft : isAutoplayTask (task t) = true) by (rewrite Etask; reflexivity).
    pose proof (Ht t Hin Ft) as E2.
    assert (Eh : handle x = handle t) by congruence.
    rewrite Eh, Pos.eqb_refl in Hh. discriminate.
Qed.

(** X11.  With [props.dragging] off, no sequence of touch and mouse
    gestures changes the index, the drag offset, the previous delta, the
    animation flag or the timeouts; the only callback such a sequence can
    call is onDragStart, and with [props.swiping] off as well the state
    does not change at all. *)
Theorem gestures_disabled (es : list Event) (s : State) :
  props_dragging p = false ->
  Forall (fun e => isGesture e = true) es ->
  let s' := run p es s in
  currentSlide s' = currentSlide s /\ move s' = move s
  /\ prevMove s' = prevMove s /\ animation s' = animation s
  /\ timeouts s' = timeouts s
  /\ (exists k, calls s' = calls s ++ repeat onDragStart k)
  /\ (props_swiping p = false -> s' = s).
Proof.
  intros Hd Hes. revert s.
  induction Hes as [|e es He Hes IH]; intros s; simpl.
  - repeat split; auto. exists 0%nat. simpl. now rewrite app_nil_r.
  - destruct (IH (step p e s)) as [A [B [C [D [E [[k F] G]]]]]].
    assert (St : (step p e s = s)
                \/ (props_swiping p = true
                    /\ step p e s = call onDragStart (setDragging true s))).
    { destruct e; try discriminate He; simpl;
        unfold onTouchStart, onTouchMove, handleDragEnd, onMouseDown,
          onMouseMove, onMouseUp, handleDragEnd;
        rewrite ?Hd; simpl; auto.
      destruct (props_swiping p); simpl; auto. }
    destruct St as [St|[Hs St]]; rewrite St in *.
    + repeat split; auto. exists k. exact F.
    + simpl in *. repeat split; auto.
      * exists (S k). rewrite F, <- app_assoc. reflexivity.
      * intros Hs'. congruence.
Qed.

End Controller.

End ControllerFacts.

(** * Gestures, rendering and mounting *)

Module GestureFacts.
Import Carousel Events Render.

Section Gestures.

Context {U : Utils} (p : Props).




Lemma filter_singleton {A} (f : A -> bool) (l : list A) (k : A) :
  NoDup l -> In k l -> f k = true ->
  (forall x, In x l -> f x = true -> x = k) ->
  filter f l = [k].
Proof.
  induction l as [|x l IH]; intros Hn Hin Hk Hu; [destruct Hin|].
  inversion Hn as [|? ? Hx Hl]; subst. simpl.
  destruct Hin as [E|Hin].
  - subst x. rewrite Hk. f_equal.
    assert (G : forall y, In y l -> f y = false).
    { intros y Hy. destruct (f y) eqn:F; [|reflexivity].
      exfalso. apply Hx. rewrite <- (Hu y (or_intror Hy) F). exact Hy. }
    clear - G. induction l as [|y l IH]; simpl; [reflexivity|].
    rewrite (G y (or_introl eq_refl)). apply IH. intros z Hz. apply G. now right.
  - destruct (f x) eqn:F.
    + exfalso. apply Hx. rewrite (Hu x (or_introl eq_refl) F). exact Hin.
    + apply IH; auto. intros y Hy. apply Hu. now right.
Qed.

Lemma filter_none {A} (f : A -> bool) (l : list A) :
  (forall x, In x l -> f x = false) -> filter f l = [].
Proof.
  induction l as [|x l IH]; simpl; intros H; [reflexivity|].
  rewrite (H x (or_introl eq_refl)). apply IH. intros y Hy. apply H. now right.
Qed.

Lemma childIndices_In x : In x (childIndices p) <-> 0 <= x < count p.
Proof.
  unfold childIndices, count. rewrite in_map_iff. split.
  - intros [n [E Hn]]. apply in_seq in Hn. lia.
  - intros H. exists (Z.to_nat x). split; [lia|]. apply in_seq. lia.
Qed.

Lemma childIndices_NoDup : NoDup (childIndices p).
Proof.
  unfold childIndices. generalize 0%nat.
  induction (props_children p) as [|n IH]; intros k; simpl; constructor.
  - rewrite in_map_iff. intros [m [E Hm]]. apply in_seq in Hm. lia.
  - apply IH.
Qed.

(** X13.  A render marks exactly one child as the current slide when the
    index is in the range the controller keeps it in: with wrap-around,
    for an index within one count of the slides, the child at
    [index mod count]; without wrap-around, for an index in [0, count),
    the child at the index.  Outside these ranges no child is marked. *)
Theorem exactly_one_current_slide (cur : Z) :
  (props_wrapAround p = true ->
   (- count p <= cur < 2 * count p ->
    currentSlides p cur = [cur mod count p])
   /\ (cur < - count p \/ 2 * count p <= cur -> currentSlides p cur = []))
  /\ (props_wrapAround p = false ->
      (0 <= cur < count p -> currentSlides p cur = [cur])
      /\ (cur < 0 \/ count p <= cur -> currentSlides p cur = [])).
Proof.
  unfold currentSlides, isCurrentSlide. split; intros Hw; rewrite Hw; split.
  - intros Hr.
    assert (Hc : 0 < count p) by lia.
    assert (Hm : 0 <= cur mod count p < count p) by (apply Z.mod_pos_bound; lia).
    assert (Hk : cur mod count p = cur \/ cur mod count p = cur - count p
                 \/ cur mod count p = cur + count p).
    { destruct (Z_lt_le_dec cur 0).
      - right. right. symmetry. apply (Z.mod_unique cur (count p) (-1)); lia.
      - destruct (Z_lt_le_dec cur (count p)).
        + left. apply Z.mod_small. lia.
        + right. left. symmetry. apply (Z.mod_unique cur (count p) 1); lia. }
    apply filter_singleton.
    + apply childIndices_NoDup.
    + now apply childIndices_In.
    + rewrite !orb_true_iff, !Z.eqb_eq. lia.
    + intros x Hx. apply childIndices_In in Hx.
      rewrite !orb_true_iff, !Z.eqb_eq. lia.
  - intros Hr. apply filter_none. intros x Hx. apply childIndices_In in Hx.
    rewrite !orb_false_iff, !Z.eqb_neq. lia.
  - intros Hr. apply filter_singleton.
    + apply childIndices_NoDup.
    + now apply childIndices_In.
    + apply Z.eqb_refl.
    + intros x _ E. apply Z.eqb_eq in E. lia.
  - intros Hr. apply filter_none. intros x Hx. apply childIndices_In in Hx.
    apply Z.eqb_neq. lia.
Qed.

(** X14.  The drag threshold when slidesToShow is 0.  With a measured
    width above 0 the quotient is infinite: the end of a drag always
    settles with [moveSlide()] and a pointer move never ends the drag
    early.  With a width of 0, or none measured, it is NaN: the end of a
    drag never settles, it calls [nextSlide()] for an offset above 0 and
    [prevSlide()] otherwise, also for an offset of 0. *)
Theorem dragThreshold_slidesToShow_zero (r s : State) :
  props_slidesToShow p = 0 ->
  props_dragging p = true -> dragging r = true ->
  let s0 := call onDragEnd (setDragging false s) in
  (forall w, carouselWidth r = Some w -> 0 < w ->
     dragThreshold p r = PosInfinity
     /\ handleDragEnd p r s =
        setPrevMove 0 (setMove 0 (moveSlide p (currentSlide r) None s0))
     /\ jsgt (Qabs (move r)) (dragThreshold p r) = false)
  /\ (carouselWidth r = None \/ carouselWidth r = Some 0 ->
      dragThreshold p r = NaN
      /\ ((0 < move r)%Q ->
          handleDragEnd p r s =
          setPrevMove 0 (setMove 0 (nextSlide p (currentSlide r) s0)))
      /\ ((move r <= 0)%Q ->
          handleDragEnd p r s =
          setPrevMove 0 (setMove 0 (prevSlide p (currentSlide r) s0)))
      /\ jsgt (Qabs (move r)) (dragThreshold p r) = false).
Proof.
  intros Hz Hd Hg s0. split.
  - intros w Hw Hpos.
    assert (E : dragThreshold p r = PosInfinity).
    { unfold dragThreshold, jsdiv. rewrite Hw, Hz. simpl.
      assert (F : Qeq_bool (inject_Z w) 0 = false).
      { destruct (Qeq_bool (inject_Z w) 0) eqn:F; [|reflexivity].
        apply Qeq_bool_iff in F. unfold Qeq in F. simpl in F. lia. }
      assert (G : Qlt_bool 0 (inject_Z w) = true).
      { apply CarouselFacts.Qlt_bool_iff. unfold Qlt. simpl. lia. }
      rewrite F, G. reflexivity. }
    split; [exact E|]. split.
    + unfold handleDragEnd. rewrite Hd, Hg, E. reflexivity.
    + rewrite E. reflexivity.
  - intros Hw.
    assert (E : dragThreshold p r = NaN).
    { unfold dragThreshold, jsdiv. rewrite Hz.
      destruct Hw as [Hw|Hw]; rewrite Hw; reflexivity. }
    split; [exact E|]. split; [|split].
    + intros Hm. unfold handleDragEnd. rewrite Hd, Hg, E. cbn [negb orb jsle].
      apply CarouselFacts.Qlt_bool_iff in Hm. rewrite Hm. reflexivity.
    + intros Hm. unfold handleDragEnd. rewrite Hd, Hg, E. cbn [negb orb jsle].
      apply CarouselFacts.Qlt_bool_false in Hm. rewrite Hm. reflexivity.
    + rewrite E. reflexivity.
Qed.

(** X15.  What mounting does.  The width of the frame is measured.  With
    autoplayReverse off the mount effects call [moveSlide] with the
    configured slide index: beforeSlide is called once, the settle timeout
    that will call afterSlide is the first timeout scheduled, and the
    animation flag is raised unless animation is disabled.  With
    autoplayReverse on no callback is called.  The index stays the initial
    one unless autoplay and wrap-around are both on. *)
Theorem mount_effects (w : Z) :
  let i := props_slideIndex p in
  let n := getNextIndex (count p) i (Some i) in
  let slide := fst (getIndexes i (i - slidesToScroll p) (count p)) in
  carouselWidth (mount p w) = Some w
  /\ isMounted (mount p w) = true
  /\ (props_autoplayReverse p = false ->
      calls (mount p w) = [beforeSlide slide n]
      /\ hd_error (timeouts (mount p w)) =
         Some {| handle := 1%positive;
                 delay := if props_disableAnimation p then 40
                          else speedOrDefault p;
                 task := SettleTask (Some i) n |}
      /\ animation (mount p w) = negb (props_disableAnimation p))
  /\ (props_autoplayReverse p = true ->
      calls (mount p w) = [] /\ animation (mount p w) = false
      /\ forall t, In t (timeouts (mount p w)) ->
                   exists cur, task t = AutoplayTask cur
                               \/ task t = WrapPrevTask cur
                               \/ task t = WrapNextTask cur)
  /\ (props_autoplay p && props_wrapAround p = false ->
      currentSlide (mount p w) = currentSlide (initialState p)).
Proof.
  intros i n slide.
  unfold mount, mountEffects, slideIndexEffect, autoplayCorrectionEffect,
    autoplayEffect, wrapAroundEffect, moveSlide, initialState.
  unfold slide, n, i, getNextIndex.
  cbn [currentSlide animation pause negb].
  split; [reflexivity|]. split.
  - destruct (props_autoplayReverse p), (props_autoplay p),
      (props_wrapAround p), (props_disableAnimation p); cbn [negb andb];
      repeat match goal with |- context [if ?c then _ else _] => destruct c end;
      reflexivity.
  - split; [|split].
    + intros Hr. rewrite Hr.
      destruct (props_autoplay p), (props_wrapAround p),
        (props_disableAnimation p); cbn [negb andb];
        repeat match goal with |- context [if ?c then _ else _] => destruct c end;
        simpl; auto.
    + intros Hr. rewrite Hr.
      destruct (props_autoplay p), (props_wrapAround p),
        (props_disableAnimation p); cbn [negb andb];
        repeat match goal with |- context [if ?c then _ else _] => destruct c end;
        simpl; repeat split; auto;
        intros t Ht; repeat (destruct Ht as [Ht|Ht]; [subst t; simpl; eauto|]);
        destruct Ht.
    + intros Haw.
      destruct (props_autoplayReverse p), (props_autoplay p),
        (props_wrapAround p), (props_disableAnimation p);
        try discriminate Haw; cbn [negb andb];
        repeat match goal with |- context [if ?c then _ else _] => destruct c end;
        reflexivity.
Qed.

End Gestures.

End GestureFacts.

(** * Keyboard controls *)

Module KeyboardFacts.
Import Carousel Keyboard.

Lemma onKeyPress_fold keyCode config : forall ks,
  let ks' := fold_left (bind keyCode) config ks in
  carousel ks' = carousel ks /\ focus ks' = focus ks
  /\ keyboardMove ks' =
     match find (fun e => includesKey (snd e) keyCode) (rev config) with
     | Some e => Some (fst e)
     | None => keyboardMove ks
     end.
Proof.
  induction config as [|e config IH] using rev_ind; intros ks; simpl.
  - auto.
  - rewrite fold_left_app, rev_app_distr. simpl.
    destruct (IH ks) as [A [B C]].
    set (x := fold_left (bind keyCode) config ks) in *. unfold bind.
    destruct (includesKey (snd e) keyCode); simpl; repeat split; auto.
Qed.

(** X16.  A key press is taken only when keyboard controls are enabled,
    the frame has the focus and the event has a key code; it then selects
    the last action of [keyCodeConfig] whose list contains the key code,
    keeps the pending action when no list contains it, and never touches
    the state of the carousel. *)
Theorem onKeyPress_selects (kp : KeyProps) (keyCode : Z) (ks : KeyState) :
  let ks' := onKeyPress kp keyCode ks in
  carousel ks' = carousel ks /\ focus ks' = focus ks
  /\ (props_enableKeyboardControls kp = true -> focus ks = true ->
      keyCode <> 0 ->
      keyboardMove ks' =
      match find (fun e => includesKey (snd e) keyCode)
                 (rev (props_keyCodeConfig kp)) with
      | Some e => Some (fst e)
      | None => keyboardMove ks
      end)
  /\ (props_enableKeyboardControls kp = false \/ focus ks = false
      \/ keyCode = 0 -> ks' = ks).
Proof.
  intros ks'. unfold ks', onKeyPress.
  destruct (onKeyPress_fold keyCode (props_keyCodeConfig kp) ks) as [A [B C]].
  destruct (props_enableKeyboardControls kp) eqn:E;
    destruct (focus ks) eqn:F; destruct (Z.eqb_spec keyCode 0) as [Z0|Z0];
    cbn [andb negb]; repeat split; auto; try discriminate; try contradiction;
    try (intros [H|[H|H]]; try discriminate H; contradiction).
Qed.

Lemma onKeyPress_selects_witness :
  let kp := {| props_enableKeyboardControls := true;
               props_keyCodeConfig :=
                 [("nextSlide"%string, Some [39; 68]);
                  ("previousSlide"%string, Some [37; 65]);
                  ("pause"%string, Some [32; 68])] |} in
  let ks := {| carousel := Examples.renderAt Examples.sixSlides 0;
               keyboardMove := None; focus := true |} in
  props_enableKeyboardControls kp = true /\ focus ks = true /\ 68 <> 0
  /\ keyboardMove (onKeyPress kp 68 ks) = Some "pause"%string
  /\ keyboardMove (onKeyPress kp 40 ks) = None.
Proof.
  intros kp ks.
  assert (H1 : props_enableKeyboardControls kp = true) by reflexivity.
  assert (H2 : focus ks = true) by reflexivity.
  assert (H3 : 68 <> 0) by discriminate.
  assert (H4 : 40 <> 0) by discriminate.
  split; [exact H1|]. split; [exact H2|]. split; [exact H3|]. split.
  - exact (proj1 (proj2 (proj2 (onKeyPress_selects kp 68 ks))) H1 H2 H3).
  - exact (proj1 (proj2 (proj2 (onKeyPress_selects kp 40 ks))) H1 H2 H4).
Defined.

Section Pause.

Context {U : Utils} (p : Props) (kp : KeyProps).



End Pause.


End KeyboardFacts.

(** * Instances of the properties above *)

Module ExtraWitnesses.
Import Carousel Events Render.

Lemma timers_consistent_always_witness :
  let p := Examples.fiveSlidesAutoplay in
  let s := @run SpecUtils.utils p
             [NextSlide 0; MouseEnter (Examples.renderAt p 0)]
             (@mount SpecUtils.utils p 300) in
  let t := {| handle := 2%positive; delay := 3000; task := AutoplayTask 0 |} in
  In t (autoplayTimeouts s)
  /\ forall t', In t' (autoplayTimeouts s) -> t' = t.
Proof.
  intros p s t.
  assert (H : In t (autoplayTimeouts s)) by (vm_compute; auto).
  split; [exact H|]. intros t' H'.
  destruct (@TimerFacts.timers_consistent_always SpecUtils.utils p 300
              [NextSlide 0; MouseEnter (Examples.renderAt p 0)])
    as [_ [_ [_ G]]].
  exact (G t' t H' H).
Defined.

Lemma commit_reschedules_autoplay_witness :
  let p := Examples.fiveSlidesAutoplay in
  let prev := Examples.renderAt p 0 in
  let r := Examples.renderAt p 1 in
  timersConsistent r /\ props_autoplay p = true
  /\ (currentSlide prev <> currentSlide r \/ pause prev <> pause r)
  /\ autoplayTimeouts (commit p prev r) =
     [ {| handle := 1%positive; delay := 3000; task := AutoplayTask 1 |} ].
Proof.
  intros p prev r.
  assert (H1 : timersConsistent r).
  { split; [split; constructor|]. intros t []. }
  assert (H2 : props_autoplay p = true) by reflexivity.
  assert (H3 : currentSlide prev <> currentSlide r \/ pause prev <> pause r)
    by (left; discriminate).
  split; [exact H1|]. split; [exact H2|]. split; [exact H3|].
  exact (ControllerFacts.commit_reschedules_autoplay p prev r H1 H2 H3).
Defined.

Lemma unmount_silences_timers_witness :
  let p := Examples.fiveSlidesAutoplay in
  let s := @mount SpecUtils.utils p 300 in
  let s' := @fires SpecUtils.utils p [1%positive; 2%positive] (unmount s) in
  autoplayTimerTracked s
  /\ currentSlide s' = currentSlide s /\ animation s' = animation s
  /\ calls s' = calls s.
Proof.
  intros p s s'.
  assert (H : autoplayTimerTracked s).
  { intros t Hin Ha. vm_compute in Hin.
    destruct Hin as [E|[E|[]]]; subst t; [discriminate Ha | reflexivity]. }
  destruct (@ControllerFacts.unmount_silences_timers SpecUtils.utils p s
              [1%positive; 2%positive] H) as [A [B [_ [_ [_ [C _]]]]]].
  split; [exact H|]. split; [exact A|]. split; [exact B | exact C].
Defined.

Lemma moveSlide_cycle_witness :
  let p := Examples.sixSlides in
  let s := initialState p in
  let s1 := @moveSlide SpecUtils.utils p 0 (Some 3) s in
  freshHandles s /\ isMounted s = true
  /\ calls (@fire SpecUtils.utils p (nextHandle s) s1)
     = [beforeSlide 0 3; afterSlide 3]
  /\ 0 < count p /\ - count p <= 3 <= count p
  /\ 0 <= getNextIndex (count p) 0 (Some 3) < count p.
Proof.
  intros p s s1.
  assert (H1 : freshHandles s) by constructor.
  assert (H2 : isMounted s = true) by reflexivity.
  assert (H3 : 0 < count p) by reflexivity.
  assert (H4 : - count p <= 3 <= count p) by (vm_compute; split; discriminate).
  destruct (@ControllerFacts.moveSlide_cycle SpecUtils.utils p s 0 3 H1 H2)
    as [_ [[A _] B]].
  split; [exact H1|]. split; [exact H2|]. split; [exact A|].
  split; [exact H3|]. split; [exact H4|]. exact (B H3 H4).
Defined.

Lemma autoplay_stops_at_end_witness :
  let p := Examples.config 6 3 3 false true false in
  let s := autoplayEffect p (Examples.renderAt p 3) (Examples.renderAt p 3) in
  let t := {| handle := 1%positive; delay := 3000; task := AutoplayTask 3 |} in
  timersConsistent s /\ In t (timeouts s) /\ task t = AutoplayTask 3
  /\ props_wrapAround p = false
  /\ (props_autoplayReverse p = false /\ count p - props_slidesToShow p <= 3)
  /\ autoplayTimeouts (@fire SpecUtils.utils p (handle t) s) = []
  /\ currentSlide (@fire SpecUtils.utils p (handle t) s) = 3.
Proof.
  intros p s t.
  assert (H1 : timersConsistent s).
  { split; [split|].
    - repeat constructor.
    - repeat constructor. simpl. tauto.
    - intros x [E|[]] _. subst x. reflexivity. }
  assert (H2 : In t (timeouts s)) by (left; reflexivity).
  assert (H3 : task t = AutoplayTask 3) by reflexivity.
  assert (H4 : props_wrapAround p = false) by reflexivity.
  assert (H5 : props_autoplayReverse p = false
               /\ count p - props_slidesToShow p <= 3)
    by (split; [reflexivity | vm_compute; discriminate]).
  destruct (@ControllerFacts.autoplay_stops_at_end SpecUtils.utils p s t 3
              H1 H2 H3 H4 (or_introl H5)) as [A [_ B]].
  split; [exact H1|]. split; [exact H2|]. split; [exact H3|].
  split; [exact H4|]. split; [exact H5|]. split; [exact B|].
  rewrite A. reflexivity.
Defined.

Lemma gestures_disabled_witness :
  let p := {| props_children := 6; props_slidesToShow := 3;
              props_slidesToScroll := 3; props_slideIndex := 0;
              props_scrollMode := "remainder"; props_wrapAround := false;
              props_autoplay := false; props_autoplayReverse := false;
              props_autoplayInterval := 3000; props_disableAnimation := false;
              props_speed := 500; props_fade := false;
              props_dragging := false; props_swiping := true;
              props_disableEdgeSwiping := false;
              props_pauseOnHover := true |} in
  let s := Examples.renderAt p 0 in
  let es := [TouchStart s; TouchMove s 120; TouchEnd s; MouseDown s;
             MouseMove s 40 0; MouseUp s] in
  props_dragging p = false
  /\ Forall (fun e => isGesture e = true) es
  /\ currentSlide (@run SpecUtils.utils p es s) = 0
  /\ timeouts (@run SpecUtils.utils p es s) = [].
Proof.
  intros p s es.
  assert (H1 : props_dragging p = false) by reflexivity.
  assert (H2 : Forall (fun e => isGesture e = true) es)
    by (repeat constructor).
  destruct (@ControllerFacts.gestures_disabled SpecUtils.utils p es s H1 H2)
    as [A [_ [_ [_ [B _]]]]].
  split; [exact H1|]. split; [exact H2|]. split; [exact A | exact B].
Defined.


Lemma exactly_one_current_slide_witness :
  let p := Examples.fiveSlidesWrapped in
  props_wrapAround p = true /\ - count p <= -1 < 2 * count p
  /\ currentSlides p (-1) = [(-1) mod count p]
  /\ props_wrapAround Examples.sixSlides = false
  /\ 0 <= 2 < count Examples.sixSlides
  /\ currentSlides Examples.sixSlides 2 = [2].
Proof.
  intros p.
  assert (H1 : props_wrapAround p = true) by reflexivity.
  assert (H2 : - count p <= -1 < 2 * count p)
    by (vm_compute; split; [discriminate | reflexivity]).
  assert (H3 : props_wrapAround Examples.sixSlides = false) by reflexivity.
  assert (H4 : 0 <= 2 < count Examples.sixSlides)
    by (vm_compute; split; [discriminate | reflexivity]).
  split; [exact H1|]. split; [exact H2|]. split.
  - exact (proj1 (proj1 (GestureFacts.exactly_one_current_slide p (-1)) H1) H2).
  - split; [exact H3|]. split; [exact H4|].
    exact (proj1 (proj2 (GestureFacts.exactly_one_current_slide
                           Examples.sixSlides 2) H3) H4).
Defined.

Lemma dragThreshold_slidesToShow_zero_witness :
  let p := Examples.config 6 0 1 false false false in
  let r := Examples.dragAt p 0 300 500 0 in
  let r0 := Examples.dragAt p 2 0 0 0 in
  props_slidesToShow p = 0 /\ props_dragging p = true /\ dragging r = true
  /\ carouselWidth r = Some 300 /\ 0 < 300
  /\ currentSlide (@handleDragEnd SpecUtils.utils p r r) = 0
  /\ dragging r0 = true /\ carouselWidth r0 = Some 0 /\ (move r0 <= 0)%Q
  /\ currentSlide (@handleDragEnd SpecUtils.utils p r0 r0) = 1.
Proof.
  intros p r r0.
  assert (H1 : props_slidesToShow p = 0) by reflexivity.
  assert (H2 : props_dragging p = true) by reflexivity.
  assert (H3 : dragging r = true) by reflexivity.
  assert (H4 : carouselWidth r = Some 300) by reflexivity.
  assert (H5 : 0 < 300) by reflexivity.
  assert (H6 : dragging r0 = true) by reflexivity.
  assert (H7 : carouselWidth r0 = Some 0) by reflexivity.
  assert (H8 : (move r0 <= 0)%Q) by (vm_compute; discriminate).
  destruct (@GestureFacts.dragThreshold_slidesToShow_zero SpecUtils.utils p
              r r H1 H2 H3) as [A _].
  destruct (A 300 H4 H5) as [_ [A1 _]].
  destruct (@GestureFacts.dragThreshold_slidesToShow_zero SpecUtils.utils p
              r0 r0 H1 H2 H6) as [_ B].
  destruct (B (or_intror H7)) as [_ [_ [B1 _]]].
  split; [exact H1|]. split; [exact H2|]. split; [exact H3|].
  split; [exact H4|]. split; [exact H5|].
  split; [rewrite A1; reflexivity|].
  split; [exact H6|]. split; [exact H7|]. split; [exact H8|].
  rewrite (B1 H8). reflexivity.
Defined.

Lemma mount_effects_witness :
  let p := Examples.sixSlides in
  props_autoplayReverse p = false
  /\ calls (@mount SpecUtils.utils p 300) = [beforeSlide 0 0]
  /\ animation (@mount SpecUtils.utils p 300) = true
  /\ props_autoplay p && props_wrapAround p = false
  /\ currentSlide (@mount SpecUtils.utils p 300) = 0.
Proof.
  intros p.
  assert (H1 : props_autoplayReverse p = false) by reflexivity.
  assert (H2 : props_autoplay p && props_wrapAround p = false) by reflexivity.
  destruct (@GestureFacts.mount_effects SpecUtils.utils p 300)
    as [_ [_ [A [_ B]]]].
  destruct (A H1) as [A1 [_ A2]].
  split; [exact H1|]. split; [exact A1|]. split; [exact A2|].
  split; [exact H2|]. exact (B H2).
Defined.

End ExtraWitnesses.
